(** * youtubequiz: the quiz-session logic of [src/index.tsx]

    A shallow embedding of the TypeScript program: JavaScript strings are
    sequences of UTF-16 code units, numbers that go through a division are
    IEEE-754 binary64 values, the DOM nodes the program touches are record
    fields, and every [async] handler is split at its single [await]. *)

From Stdlib Require Import ZArith NArith Lia Bool String Ascii DecimalString.
From Stdlib Require Import Floats.SpecFloat.
From stdpp Require Import base list.

Local Open Scope nat_scope.

(** ** JavaScript primitives *)

Module JS.

(** A string is its sequence of UTF-16 code units; [length] is what
    [s.length] returns. *)
Definition jsstring := list N.

(** The code units of an ASCII literal of the source. *)
Definition str (s : string) : jsstring :=
  N_of_ascii <$> list_ascii_of_string s.

Arguments str : simpl never.

(** Truthiness of [string | null]: [null] and the empty string are falsy. *)
Definition truthy (o : option jsstring) : bool :=
  match o with
  | Some (_ :: _) => true
  | _ => false
  end.

(** LineTerminator of the ECMAScript grammar: LF, CR, LS, PS. *)
Definition line_terminator (c : N) : bool :=
  (N.eqb c 10 || N.eqb c 13 || N.eqb c 8232 || N.eqb c 8233)%N.

(** WhiteSpace of the ECMAScript grammar: TAB, VT, FF, SP, NBSP, ZWNBSP and
    the category Zs. *)
Definition white_space (c : N) : bool :=
  (N.eqb c 9 || N.eqb c 11 || N.eqb c 12 || N.eqb c 32 || N.eqb c 160
   || N.eqb c 65279 || N.eqb c 5760 || (N.leb 8192 c && N.leb c 8202)
   || N.eqb c 8239 || N.eqb c 8287 || N.eqb c 12288)%N.

Definition trim_char (c : N) : bool := white_space c || line_terminator c.

Fixpoint trim_start (s : jsstring) : jsstring :=
  match s with
  | c :: s' => if trim_char c then trim_start s' else s
  | [] => []
  end.

(** [String.prototype.trim]. *)
Definition trim (s : jsstring) : jsstring :=
  rev (trim_start (rev (trim_start s))).

(** [Array.prototype.join] on strings. *)
Fixpoint join (sep : jsstring) (l : list jsstring) : jsstring :=
  match l with
  | [] => []
  | [x] => x
  | x :: l' => x ++ sep ++ join sep l'
  end.

(** *** Numbers: binary64 *)

Definition prec : Z := 53.
Definition emax : Z := 1024.

Definition number := spec_float.

(** A counter as a Number (exact below 2^53). *)
Definition Number_of_nat (n : nat) : number :=
  binary_normalize prec emax (Z.of_nat n) 0 false.

Definition Number_div (x y : number) : number := SFdiv prec emax x y.
Definition Number_mul (x y : number) : number := SFmul prec emax x y.

(** [Math.round]: the integral Number closest to [x], ties towards
    +Infinity; NaN, the infinities and the zeros are returned as they are,
    and a result that is zero keeps the sign of [x]. *)
Definition Math_round (x : number) : number :=
  match x with
  | S754_finite s m e =>
      if (0 <=? e)%Z then x
      else
        let d := Z.pow 2 (- e) in
        let sm := if s then Z.neg m else Z.pos m in
        let r := ((2 * sm + d) / (2 * d))%Z in
        if (r =? 0)%Z then S754_zero s
        else binary_normalize prec emax r 0 false
  | _ => x
  end.

(** [x === y] and [x >= y] on Numbers. *)
Definition strict_eq (x y : number) : bool := SFeqb x y.
Definition Number_ge (x y : number) : bool := SFleb y x.

(** The integer a finite Number denotes when it is integral. *)
Definition to_Z (x : number) : option Z :=
  match x with
  | S754_zero _ => Some 0%Z
  | S754_finite s m e =>
      let sm := if s then Z.neg m else Z.pos m in
      if (0 <=? e)%Z then Some (sm * Z.pow 2 e)%Z
      else if (sm mod Z.pow 2 (- e) =? 0)%Z then Some (sm / Z.pow 2 (- e))%Z
      else None
  | _ => None
  end.

(** [String(n)] for a counter. *)
Definition nat_toString (n : nat) : jsstring :=
  str (NilEmpty.string_of_uint (Nat.to_uint n)).

(** [String(x)] for the Numbers [Math.round] returns here: NaN, the
    infinities, and integers below 10^21 (printed in decimal digits). *)
Definition Number_toString (x : number) : jsstring :=
  match x with
  | S754_nan => str "NaN"
  | S754_infinity false => str "Infinity"
  | S754_infinity true => str "-Infinity"
  | _ =>
      match to_Z x with
      | Some z => str (NilZero.string_of_int (Z.to_int z))
      | None => str "NaN"
      end
  end.

(** *** Regular expressions

    The fragment of ECMAScript patterns the program uses, with the
    backtracking semantics of the language: alternatives are tried in
    order, [*] is greedy, a group records the text it matched, and every
    quantified atom is a one-character class. *)

Inductive cclass : Type :=
  | CDot                    (* .       any code unit but a line terminator *)
  | CLit (c : N)            (* a literal character *)
  | CWord                   (* \w      [A-Za-z0-9_] *)
  | CNeg (cs : list N).     (* [^...]  any code unit not listed *)

Inductive regex : Type :=
  | REmpty
  | RBol                    (* ^ (no multiline flag) *)
  | RCls (c : cclass)
  | RStar (c : cclass)      (* c* *)
  | RSeq (r1 r2 : regex)
  | RAlt (r1 r2 : regex)    (* r1|r2 *)
  | RGroup (n : nat) (r : regex).

Definition word_char (c : N) : bool :=
  ((N.leb 97 c && N.leb c 122) || (N.leb 65 c && N.leb c 90)
   || (N.leb 48 c && N.leb c 57) || N.eqb c 95)%N.

Definition cls_match (cl : cclass) (c : N) : bool :=
  match cl with
  | CDot => negb (line_terminator c)
  | CLit d => N.eqb c d
  | CWord => word_char c
  | CNeg cs => negb (existsb (N.eqb c) cs)
  end.

(** The captures of a match, most recent first. *)
Definition captures := list (nat * jsstring).

Fixpoint capture (n : nat) (cs : captures) : option jsstring :=
  match cs with
  | [] => None
  | (k, s) :: cs' => if Nat.eqb k n then Some s else capture n cs'
  end.

Section Matcher.
Context {R : Type}.

(** Greedy star of a class at index [pos], the input from there on being
    [s]: take one more character when possible, and fall back to the
    continuation at the current index when the longer attempt fails. *)
Fixpoint star_m (cl : cclass) (pos : nat) (s : jsstring)
    (k : nat -> jsstring -> option R) : option R :=
  match s with
  | c :: s' =>
      if cls_match cl c then
        match star_m cl (S pos) s' k with
        | Some r => Some r
        | None => k pos s
        end
      else k pos s
  | [] => k pos s
  end.

(** The matcher of [r] at index [pos] with continuation [k]. *)
Fixpoint m (r : regex) (pos : nat) (s : jsstring) (cs : captures)
    (k : nat -> jsstring -> captures -> option R) : option R :=
  match r with
  | REmpty => k pos s cs
  | RBol => if Nat.eqb pos 0 then k pos s cs else None
  | RCls cl =>
      match s with
      | c :: s' => if cls_match cl c then k (S pos) s' cs else None
      | [] => None
      end
  | RStar cl => star_m cl pos s (fun p' s' => k p' s' cs)
  | RSeq r1 r2 => m r1 pos s cs (fun p1 s1 c1 => m r2 p1 s1 c1 k)
  | RAlt r1 r2 =>
      match m r1 pos s cs k with
      | Some x => Some x
      | None => m r2 pos s cs k
      end
  | RGroup n r1 =>
      m r1 pos s cs (fun p1 s1 c1 => k p1 s1 ((n, take (p1 - pos) s) :: c1))
  end.
End Matcher.

(** [RegExp.prototype.exec] without the global flag: the first index, from
    the left, at which the pattern matches; the result is the captures. *)
Fixpoint exec_from (r : regex) (pos : nat) (s : jsstring) : option captures :=
  match m r pos s [] (fun _ _ cs => Some cs) with
  | Some cs => Some cs
  | None =>
      match s with
      | [] => None
      | _ :: s' => exec_from r (S pos) s'
      end
  end.

(** [s.match(r)]. *)
Definition String_match (s : jsstring) (r : regex) : option captures :=
  exec_from r 0 s.

(** The pattern of a run of literal characters. *)
Definition lit (s : string) : regex :=
  foldr (fun c r => RSeq (RCls (CLit c)) r) REmpty (str s).

End JS.

Import JS.

(** ** The program *)

(** The pattern of [getYouTubeID]; its parts, in the order of the source:
      ^   .*   ( youtu.be\/ | v\/ | u\/\w\/ | embed\/ | watch\?v= | &v= )
      ( [^#&?]* )   .*
    with no flag. *)
Definition delimiters : regex :=
  RAlt (RSeq (lit "youtu") (RSeq (RCls CDot) (lit "be/")))
    (RAlt (lit "v/")
       (RAlt (RSeq (lit "u/") (RSeq (RCls CWord) (lit "/")))
          (RAlt (lit "embed/")
             (RAlt (lit "watch?v=") (lit "&v="))))).

Definition token_class : cclass := CNeg (str "#&?").

Definition regExp : regex :=
  RSeq RBol
    (RSeq (RStar CDot)
       (RSeq (RGroup 1 delimiters)
          (RSeq (RGroup 2 (RStar token_class)) (RStar CDot)))).

(** [getYouTubeID]: group 2 of the match when it has 11 code units. *)
Definition getYouTubeID (url : jsstring) : option jsstring :=
  match String_match url regExp with
  | Some cs =>
      match capture 2 cs with
      | Some id => if Nat.eqb (length id) 11 then Some id else None
      | None => None
      end
  | None => None
  end.

(** *** Data *)

Record QuizQuestion : Type := mkQuizQuestion {
  question : jsstring;
  options : list jsstring;
  answer : jsstring
}.

(** A [label.option] with the radio input and the span it holds. Both the
    input's [value] and the span's text are the option text; the three
    flags are the classes [selected], [correct] and [incorrect] of the
    label. *)
Record OptionEl : Type := mkOptionEl {
  value : jsstring;
  selected : bool;
  correct : bool;
  incorrect : bool;
  input_disabled : bool;
  cursor_default : bool
}.

(** A [div.question-item]: its heading, its option labels (the array
    [optionElements] the handlers close over), the answer [q.answer] they
    close over, and the class [answered] of its [div.options]. *)
Record QuestionItem : Type := mkQuestionItem {
  heading : jsstring;
  q_answer : jsstring;
  optionElements : list OptionEl;
  answered : bool
}.

(** The embedded player; every attribute but [src] is a constant. *)
Record Iframe : Type := mkIframe { src : jsstring }.

(** [style.display] of an element: not set by the script yet, or the value
    the script assigned. *)
Inductive Display : Type := display_unset | display_block | display_none.

(** Which handler is suspended on a request, with the locals it resumes
    with. *)
Inductive Caller : Type :=
  | BySubmit (transcript videoId : jsstring)
  | ByRetake.

(** A call of [ai.models.generateContent] that has not settled. *)
Record Request : Type := mkRequest {
  caller : Caller;
  contents : jsstring
}.

(** How a request settles.

    [Failed]: the [catch] block is entered before the history is written.
    The promise rejects, or [JSON.parse] throws, or the parsed value cannot
    be spread (null, a boolean, a number, an object); [message] is the
    message of the [Error] thrown, [None] when what was thrown is not an
    [Error].

    [Resolved]: the text parses to an array of questions, as the source
    types it.

    [Nonconforming]: the text parses to a non-empty string, or to an array
    on which [renderQuestions] throws. Its elements are pushed on the
    history first; [renderQuestions] then sets the counters from its
    length [count], appends the blocks of the elements [rendered] that
    come before the one it throws on, and throws [message]. The program
    reads nothing of a history item but its [question] property, so the
    items pushed are given as [written], questions with the text that
    property contributes to a prompt.

    Outside the model: an array that holds [null], on which no later
    prompt can be built, and an array that renders although its fields
    are not the strings of the schema. *)
Inductive Outcome : Type :=
  | Failed (message : option jsstring)
  | Resolved (quizData : list QuizQuestion)
  | Nonconforming (written rendered : list QuizQuestion) (count : nat)
      (message : option jsstring).

Record State : Type := mkState {
  (* the module-level variables *)
  totalQuestions : nat;
  answeredQuestions : nat;
  correctAnswers : nat;
  currentTranscript : option jsstring;
  currentVideoId : option jsstring;
  previousQuestions : list QuizQuestion;
  (* the form *)
  urlInput_value : jsstring;
  transcriptInput_value : jsstring;
  formError_hidden : bool;
  formError_textContent : jsstring;
  generateBtn_disabled : bool;
  generateBtn_textContent : jsstring;
  (* the output region *)
  outputContainer_hidden : bool;
  videoContainer : list Iframe;
  loader_display : Display;
  errorMessage_hidden : bool;
  errorMessage_textContent : jsstring;
  questionsList : list QuestionItem;
  (* the results panel and its buttons *)
  resultsContainer_display : Display;
  resultsTitle_textContent : jsstring;
  resultsSummary_textContent : jsstring;
  restartBtn_disabled : bool;
  retakeBtn_disabled : bool;
  retakeBtn_textContent : jsstring;
  (* generation requests awaiting their response, oldest first *)
  pending : list Request
}.

Definition set_totalQuestions (v : nat) (st : State) : State :=
  mkState v (answeredQuestions st) (correctAnswers st) (currentTranscript st)
  (currentVideoId st) (previousQuestions st) (urlInput_value st)
  (transcriptInput_value st) (formError_hidden st) (formError_textContent st)
  (generateBtn_disabled st) (generateBtn_textContent st)
  (outputContainer_hidden st) (videoContainer st) (loader_display st)
  (errorMessage_hidden st) (errorMessage_textContent st) (questionsList st)
  (resultsContainer_display st) (resultsTitle_textContent st)
  (resultsSummary_textContent st) (restartBtn_disabled st)
  (retakeBtn_disabled st) (retakeBtn_textContent st) (pending st).

Definition set_answeredQuestions (v : nat) (st : State) : State :=
  mkState (totalQuestions st) v (correctAnswers st) (currentTranscript st)
  (currentVideoId st) (previousQuestions st) (urlInput_value st)
  (transcriptInput_value st) (formError_hidden st) (formError_textContent st)
  (generateBtn_disabled st) (generateBtn_textContent st)
  (outputContainer_hidden st) (videoContainer st) (loader_display st)
  (errorMessage_hidden st) (errorMessage_textContent st) (questionsList st)
  (resultsContainer_display st) (resultsTitle_textContent st)
  (resultsSummary_textContent st) (restartBtn_disabled st)
  (retakeBtn_disabled st) (retakeBtn_textContent st) (pending st).

Definition set_correctAnswers (v : nat) (st : State) : State :=
  mkState (totalQuestions st) (answeredQuestions st) v (currentTranscript st)
  (currentVideoId st) (previousQuestions st) (urlInput_value st)
  (transcriptInput_value st) (formError_hidden st) (formError_textContent st)
  (generateBtn_disabled st) (generateBtn_textContent st)
  (outputContainer_hidden st) (videoContainer st) (loader_display st)
  (errorMessage_hidden st) (errorMessage_textContent st) (questionsList st)
  (resultsContainer_display st) (resultsTitle_textContent st)
  (resultsSummary_textContent st) (restartBtn_disabled st)
  (retakeBtn_disabled st) (retakeBtn_textContent st) (pending st).

Definition set_currentTranscript (v : option jsstring) (st : State) : State :=
  mkState (totalQuestions st) (answeredQuestions st) (correctAnswers st) v
  (currentVideoId st) (previousQuestions st) (urlInput_value st)
  (transcriptInput_value st) (formError_hidden st) (formError_textContent st)
  (generateBtn_disabled st) (generateBtn_textContent st)
  (outputContainer_hidden st) (videoContainer st) (loader_display st)
  (errorMessage_hidden st) (errorMessage_textContent st) (questionsList st)
  (resultsContainer_display st) (resultsTitle_textContent st)
  (resultsSummary_textContent st) (restartBtn_disabled st)
  (retakeBtn_disabled st) (retakeBtn_textContent st) (pending st).

Definition set_currentVideoId (v : option jsstring) (st : State) : State :=
  mkState (totalQuestions st) (answeredQuestions st) (correctAnswers st)
  (currentTranscript st) v (previousQuestions st) (urlInput_value st)
  (transcriptInput_value st) (formError_hidden st) (formError_textContent st)
  (generateBtn_disabled st) (generateBtn_textContent st)
  (outputContainer_hidden st) (videoContainer st) (loader_display st)
  (errorMessage_hidden st) (errorMessage_textContent st) (questionsList st)
  (resultsContainer_display st) (resultsTitle_textContent st)
  (resultsSummary_textContent st) (restartBtn_disabled st)
  (retakeBtn_disabled st) (retakeBtn_textContent st) (pending st).

Definition set_previousQuestions (v : list QuizQuestion) (st : State) : State :=
  mkState (totalQuestions st) (answeredQuestions st) (correctAnswers st)
  (currentTranscript st) (currentVideoId st) v (urlInput_value st)
  (transcriptInput_value st) (formError_hidden st) (formError_textContent st)
  (generateBtn_disabled st) (generateBtn_textContent st)
  (outputContainer_hidden st) (videoContainer st) (loader_display st)
  (errorMessage_hidden st) (errorMessage_textContent st) (questionsList st)
  (resultsContainer_display st) (resultsTitle_textContent st)
  (resultsSummary_textContent st) (restartBtn_disabled st)
  (retakeBtn_disabled st) (retakeBtn_textContent st) (pending st).

Definition set_urlInput_value (v : jsstring) (st : State) : State :=
  mkState (totalQuestions st) (answeredQuestions st) (correctAnswers st)
  (currentTranscript st) (currentVideoId st) (previousQuestions st) v
  (transcriptInput_value st) (formError_hidden st) (formError_textContent st)
  (generateBtn_disabled st) (generateBtn_textContent st)
  (outputContainer_hidden st) (videoContainer st) (loader_display st)
  (errorMessage_hidden st) (errorMessage_textContent st) (questionsList st)
  (resultsContainer_display st) (resultsTitle_textContent st)
  (resultsSummary_textContent st) (restartBtn_disabled st)
  (retakeBtn_disabled st) (retakeBtn_textContent st) (pending st).

Definition set_transcriptInput_value (v : jsstring) (st : State) : State :=
  mkState (totalQuestions st) (answeredQuestions st) (correctAnswers st)
  (currentTranscript st) (currentVideoId st) (previousQuestions st)
  (urlInput_value st) v (formError_hidden st) (formError_textContent st)
  (generateBtn_disabled st) (generateBtn_textContent st)
  (outputContainer_hidden st) (videoContainer st) (loader_display st)
  (errorMessage_hidden st) (errorMessage_textContent st) (questionsList st)
  (resultsContainer_display st) (resultsTitle_textContent st)
  (resultsSummary_textContent st) (restartBtn_disabled st)
  (retakeBtn_disabled st) (retakeBtn_textContent st) (pending st).

Definition set_formError_hidden (v : bool) (st : State) : State :=
  mkState (totalQuestions st) (answeredQuestions st) (correctAnswers st)
  (currentTranscript st) (currentVideoId st) (previousQuestions st)
  (urlInput_value st) (transcriptInput_value st) v (formError_textContent st)
  (generateBtn_disabled st) (generateBtn_textContent st)
  (outputContainer_hidden st) (videoContainer st) (loader_display st)
  (errorMessage_hidden st) (errorMessage_textContent st) (questionsList st)
  (resultsContainer_display st) (resultsTitle_textContent st)
  (resultsSummary_textContent st) (restartBtn_disabled st)
  (retakeBtn_disabled st) (retakeBtn_textContent st) (pending st).

Definition set_formError_textContent (v : jsstring) (st : State) : State :=
  mkState (totalQuestions st) (answeredQuestions st) (correctAnswers st)
  (currentTranscript st) (currentVideoId st) (previousQuestions st)
  (urlInput_value st) (transcriptInput_value st) (formError_hidden st) v
  (generateBtn_disabled st) (generateBtn_textContent st)
  (outputContainer_hidden st) (videoContainer st) (loader_display st)
  (errorMessage_hidden st) (errorMessage_textContent st) (questionsList st)
  (resultsContainer_display st) (resultsTitle_textContent st)
  (resultsSummary_textContent st) (restartBtn_disabled st)
  (retakeBtn_disabled st) (retakeBtn_textContent st) (pending st).

Definition set_generateBtn_disabled (v : bool) (st : State) : State :=
  mkState (totalQuestions st) (answeredQuestions st) (correctAnswers st)
  (currentTranscript st) (currentVideoId st) (previousQuestions st)
  (urlInput_value st) (transcriptInput_value st) (formError_hidden st)
  (formError_textContent st) v (generateBtn_textContent st)
  (outputContainer_hidden st) (videoContainer st) (loader_display st)
  (errorMessage_hidden st) (errorMessage_textContent st) (questionsList st)
  (resultsContainer_display st) (resultsTitle_textContent st)
  (resultsSummary_textContent st) (restartBtn_disabled st)
  (retakeBtn_disabled st) (retakeBtn_textContent st) (pending st).

Definition set_generateBtn_textContent (v : jsstring) (st : State) : State :=
  mkState (totalQuestions st) (answeredQuestions st) (correctAnswers st)
  (currentTranscript st) (currentVideoId st) (previousQuestions st)
  (urlInput_value st) (transcriptInput_value st) (formError_hidden st)
  (formError_textContent st) (generateBtn_disabled st) v
  (outputContainer_hidden st) (videoContainer st) (loader_display st)
  (errorMessage_hidden st) (errorMessage_textContent st) (questionsList st)
  (resultsContainer_display st) (resultsTitle_textContent st)
  (resultsSummary_textContent st) (restartBtn_disabled st)
  (retakeBtn_disabled st) (retakeBtn_textContent st) (pending st).

Definition set_outputContainer_hidden (v : bool) (st : State) : State :=
  mkState (totalQuestions st) (answeredQuestions st) (correctAnswers st)
  (currentTranscript st) (currentVideoId st) (previousQuestions st)
  (urlInput_value st) (transcriptInput_value st) (formError_hidden st)
  (formError_textContent st) (generateBtn_disabled st)
  (generateBtn_textContent st) v (videoContainer st) (loader_display st)
  (errorMessage_hidden st) (errorMessage_textContent st) (questionsList st)
  (resultsContainer_display st) (resultsTitle_textContent st)
  (resultsSummary_textContent st) (restartBtn_disabled st)
  (retakeBtn_disabled st) (retakeBtn_textContent st) (pending st).

Definition set_videoContainer (v : list Iframe) (st : State) : State :=
  mkState (totalQuestions st) (answeredQuestions st) (correctAnswers st)
  (currentTranscript st) (currentVideoId st) (previousQuestions st)
  (urlInput_value st) (transcriptInput_value st) (formError_hidden st)
  (formError_textContent st) (generateBtn_disabled st)
  (generateBtn_textContent st) (outputContainer_hidden st) v
  (loader_display st) (errorMessage_hidden st) (errorMessage_textContent st)
  (questionsList st) (resultsContainer_display st)
  (resultsTitle_textContent st) (resultsSummary_textContent st)
  (restartBtn_disabled st) (retakeBtn_disabled st) (retakeBtn_textContent st)
  (pending st).

Definition set_loader_display (v : Display) (st : State) : State :=
  mkState (totalQuestions st) (answeredQuestions st) (correctAnswers st)
  (currentTranscript st) (currentVideoId st) (previousQuestions st)
  (urlInput_value st) (transcriptInput_value st) (formError_hidden st)
  (formError_textContent st) (generateBtn_disabled st)
  (generateBtn_textContent st) (outputContainer_hidden st)
  (videoContainer st) v (errorMessage_hidden st)
  (errorMessage_textContent st) (questionsList st)
  (resultsContainer_display st) (resultsTitle_textContent st)
  (resultsSummary_textContent st) (restartBtn_disabled st)
  (retakeBtn_disabled st) (retakeBtn_textContent st) (pending st).

Definition set_errorMessage_hidden (v : bool) (st : State) : State :=
  mkState (totalQuestions st) (answeredQuestions st) (correctAnswers st)
  (currentTranscript st) (currentVideoId st) (previousQuestions st)
  (urlInput_value st) (transcriptInput_value st) (formError_hidden st)
  (formError_textContent st) (generateBtn_disabled st)
  (generateBtn_textContent st) (outputContainer_hidden st)
  (videoContainer st) (loader_display st) v (errorMessage_textContent st)
  (questionsList st) (resultsContainer_display st)
  (resultsTitle_textContent st) (resultsSummary_textContent st)
  (restartBtn_disabled st) (retakeBtn_disabled st) (retakeBtn_textContent st)
  (pending st).

Definition set_errorMessage_textContent (v : jsstring) (st : State) : State :=
  mkState (totalQuestions st) (answeredQuestions st) (correctAnswers st)
  (currentTranscript st) (currentVideoId st) (previousQuestions st)
  (urlInput_value st) (transcriptInput_value st) (formError_hidden st)
  (formError_textContent st) (generateBtn_disabled st)
  (generateBtn_textContent st) (outputContainer_hidden st)
  (videoContainer st) (loader_display st) (errorMessage_hidden st) v
  (questionsList st) (resultsContainer_display st)
  (resultsTitle_textContent st) (resultsSummary_textContent st)
  (restartBtn_disabled st) (retakeBtn_disabled st) (retakeBtn_textContent st)
  (pending st).

Definition set_questionsList (v : list QuestionItem) (st : State) : State :=
  mkState (totalQuestions st) (answeredQuestions st) (correctAnswers st)
  (currentTranscript st) (currentVideoId st) (previousQuestions st)
  (urlInput_value st) (transcriptInput_value st) (formError_hidden st)
  (formError_textContent st) (generateBtn_disabled st)
  (generateBtn_textContent st) (outputContainer_hidden st)
  (videoContainer st) (loader_display st) (errorMessage_hidden st)
  (errorMessage_textContent st) v (resultsContainer_display st)
  (resultsTitle_textContent st) (resultsSummary_textContent st)
  (restartBtn_disabled st) (retakeBtn_disabled st) (retakeBtn_textContent st)
  (pending st).

Definition set_resultsContainer_display (v : Display) (st : State) : State :=
  mkState (totalQuestions st) (answeredQuestions st) (correctAnswers st)
  (currentTranscript st) (currentVideoId st) (previousQuestions st)
  (urlInput_value st) (transcriptInput_value st) (formError_hidden st)
  (formError_textContent st) (generateBtn_disabled st)
  (generateBtn_textContent st) (outputContainer_hidden st)
  (videoContainer st) (loader_display st) (errorMessage_hidden st)
  (errorMessage_textContent st) (questionsList st) v
  (resultsTitle_textContent st) (resultsSummary_textContent st)
  (restartBtn_disabled st) (retakeBtn_disabled st) (retakeBtn_textContent st)
  (pending st).

Definition set_resultsTitle_textContent (v : jsstring) (st : State) : State :=
  mkState (totalQuestions st) (answeredQuestions st) (correctAnswers st)
  (currentTranscript st) (currentVideoId st) (previousQuestions st)
  (urlInput_value st) (transcriptInput_value st) (formError_hidden st)
  (formError_textContent st) (generateBtn_disabled st)
  (generateBtn_textContent st) (outputContainer_hidden st)
  (videoContainer st) (loader_display st) (errorMessage_hidden st)
  (errorMessage_textContent st) (questionsList st)
  (resultsContainer_display st) v (resultsSummary_textContent st)
  (restartBtn_disabled st) (retakeBtn_disabled st) (retakeBtn_textContent st)
  (pending st).

Definition set_resultsSummary_textContent (v : jsstring) (st : State) : State :=
  mkState (totalQuestions st) (answeredQuestions st) (correctAnswers st)
  (currentTranscript st) (currentVideoId st) (previousQuestions st)
  (urlInput_value st) (transcriptInput_value st) (formError_hidden st)
  (formError_textContent st) (generateBtn_disabled st)
  (generateBtn_textContent st) (outputContainer_hidden st)
  (videoContainer st) (loader_display st) (errorMessage_hidden st)
  (errorMessage_textContent st) (questionsList st)
  (resultsContainer_display st) (resultsTitle_textContent st) v
  (restartBtn_disabled st) (retakeBtn_disabled st) (retakeBtn_textContent st)
  (pending st).

Definition set_restartBtn_disabled (v : bool) (st : State) : State :=
  mkState (totalQuestions st) (answeredQuestions st) (correctAnswers st)
  (currentTranscript st) (currentVideoId st) (previousQuestions st)
  (urlInput_value st) (transcriptInput_value st) (formError_hidden st)
  (formError_textContent st) (generateBtn_disabled st)
  (generateBtn_textContent st) (outputContainer_hidden st)
  (videoContainer st) (loader_display st) (errorMessage_hidden st)
  (errorMessage_textContent st) (questionsList st)
  (resultsContainer_display st) (resultsTitle_textContent st)
  (resultsSummary_textContent st) v (retakeBtn_disabled st)
  (retakeBtn_textContent st) (pending st).

Definition set_retakeBtn_disabled (v : bool) (st : State) : State :=
  mkState (totalQuestions st) (answeredQuestions st) (correctAnswers st)
  (currentTranscript st) (currentVideoId st) (previousQuestions st)
  (urlInput_value st) (transcriptInput_value st) (formError_hidden st)
  (formError_textContent st) (generateBtn_disabled st)
  (generateBtn_textContent st) (outputContainer_hidden st)
  (videoContainer st) (loader_display st) (errorMessage_hidden st)
  (errorMessage_textContent st) (questionsList st)
  (resultsContainer_display st) (resultsTitle_textContent st)
  (resultsSummary_textContent st) (restartBtn_disabled st) v
  (retakeBtn_textContent st) (pending st).

Definition set_retakeBtn_textContent (v : jsstring) (st : State) : State :=
  mkState (totalQuestions st) (answeredQuestions st) (correctAnswers st)
  (currentTranscript st) (currentVideoId st) (previousQuestions st)
  (urlInput_value st) (transcriptInput_value st) (formError_hidden st)
  (formError_textContent st) (generateBtn_disabled st)
  (generateBtn_textContent st) (outputContainer_hidden st)
  (videoContainer st) (loader_display st) (errorMessage_hidden st)
  (errorMessage_textContent st) (questionsList st)
  (resultsContainer_display st) (resultsTitle_textContent st)
  (resultsSummary_textContent st) (restartBtn_disabled st)
  (retakeBtn_disabled st) v (pending st).

Definition set_pending (v : list Request) (st : State) : State :=
  mkState (totalQuestions st) (answeredQuestions st) (correctAnswers st)
  (currentTranscript st) (currentVideoId st) (previousQuestions st)
  (urlInput_value st) (transcriptInput_value st) (formError_hidden st)
  (formError_textContent st) (generateBtn_disabled st)
  (generateBtn_textContent st) (outputContainer_hidden st)
  (videoContainer st) (loader_display st) (errorMessage_hidden st)
  (errorMessage_textContent st) (questionsList st)
  (resultsContainer_display st) (resultsTitle_textContent st)
  (resultsSummary_textContent st) (restartBtn_disabled st)
  (retakeBtn_disabled st) (retakeBtn_textContent st) v.

(** Statements run in sequence. *)
Definition andThen (f g : State -> State) : State -> State :=
  fun st => g (f st).
Infix ">>" := andThen (at level 65, right associativity).

Definition set_selected (b : bool) (o : OptionEl) : OptionEl :=
  mkOptionEl (value o) b (correct o) (incorrect o) (input_disabled o)
    (cursor_default o).
Definition set_correct (b : bool) (o : OptionEl) : OptionEl :=
  mkOptionEl (value o) (selected o) b (incorrect o) (input_disabled o)
    (cursor_default o).
Definition set_incorrect (b : bool) (o : OptionEl) : OptionEl :=
  mkOptionEl (value o) (selected o) (correct o) b (input_disabled o)
    (cursor_default o).
Definition disable_option (o : OptionEl) : OptionEl :=
  mkOptionEl (value o) (selected o) (correct o) (incorrect o) true true.

Definition set_optionElements (l : list OptionEl) (it : QuestionItem)
  : QuestionItem :=
  mkQuestionItem (heading it) (q_answer it) l (answered it).
Definition set_answered (b : bool) (it : QuestionItem) : QuestionItem :=
  mkQuestionItem (heading it) (q_answer it) (optionElements it) b.

(** *** The page when the script starts *)

(** Modelled from the spec: the markup (index.html) is not among the
    sources, so the page as loaded is the "initial idle state" that restart
    returns to: empty fields, nothing shown, no button disabled. The
    module-level variables have the initial values the source declares. *)
Definition init : State :=
  {| totalQuestions := 0; answeredQuestions := 0; correctAnswers := 0;
     currentTranscript := None; currentVideoId := None;
     previousQuestions := [];
     urlInput_value := []; transcriptInput_value := [];
     formError_hidden := true; formError_textContent := [];
     generateBtn_disabled := false;
     generateBtn_textContent := str "Generate Quiz";
     outputContainer_hidden := true; videoContainer := [];
     loader_display := display_unset;
     errorMessage_hidden := true; errorMessage_textContent := [];
     questionsList := [];
     resultsContainer_display := display_unset;
     resultsTitle_textContent := []; resultsSummary_textContent := [];
     restartBtn_disabled := false; retakeBtn_disabled := false;
     retakeBtn_textContent := str "Generate New Questions";
     pending := [] |}.

(** *** Output helpers *)

Definition clearOutput : State -> State :=
  set_errorMessage_hidden true
  >> set_questionsList []
  >> set_resultsContainer_display display_none.

Definition displayError (message : jsstring) : State -> State :=
  clearOutput
  >> set_videoContainer []
  >> set_errorMessage_textContent message
  >> set_errorMessage_hidden false.

(** Moving the loader to the front of the quiz container changes no field
    of the model. *)
Definition setLoading (isLoading : bool) : State -> State :=
  if isLoading then
    set_loader_display display_block
    >> set_generateBtn_disabled true
    >> set_generateBtn_textContent (str "Generating...")
  else
    set_loader_display display_none
    >> set_generateBtn_disabled false
    >> set_generateBtn_textContent (str "Generate Quiz").

(** *** Scoring *)

Definition percentage_of (correctAnswers totalQuestions : nat) : number :=
  Math_round
    (Number_mul
       (Number_div (Number_of_nat correctAnswers) (Number_of_nat totalQuestions))
       (Number_of_nat 100)).

Definition title_perfect : jsstring :=
  str "Perfect Score! " ++ [55358; 56691]%N.
Definition title_great : jsstring :=
  str "Great Job! " ++ [55357; 56397]%N.
Definition title_not_bad : jsstring :=
  str "Not Bad! " ++ [55357; 56842]%N.
Definition title_better_luck : jsstring :=
  str "Better Luck Next Time! " ++ [55357; 56837]%N.

Definition title_of (percentage : number) : jsstring :=
  if strict_eq percentage (Number_of_nat 100) then title_perfect
  else if Number_ge percentage (Number_of_nat 75) then title_great
  else if Number_ge percentage (Number_of_nat 50) then title_not_bad
  else title_better_luck.

(** Scrolling the results into view changes no field of the model. *)
Definition displayResults : State -> State :=
  fun st =>
    let percentage := percentage_of (correctAnswers st) (totalQuestions st) in
    (set_resultsTitle_textContent (title_of percentage)
     >> set_resultsSummary_textContent
          (str "You answered " ++ nat_toString (correctAnswers st)
           ++ str " out of " ++ nat_toString (totalQuestions st)
           ++ str " questions correctly (" ++ Number_toString percentage
           ++ str "%).")
     >> set_resultsContainer_display display_block) st.

(** *** Answering *)

(** [checkAnswer] on the option labels of question [j], the selected label
    being the one at index [i]. *)
Definition checkAnswer_options (all : list OptionEl) (i : nat)
    (selectedAnswer correctAnswer : jsstring) : list OptionEl :=
  let l1 := set_selected false <$> all in
  let l2 := alter (set_selected true) i l1 in
  let l3 :=
    if bool_decide (selectedAnswer = correctAnswer) then
      alter (set_correct true) i l2
    else
      let l2' := alter (set_incorrect true) i l2 in
      match list_find (fun opt => value opt = correctAnswer) l2' with
      | Some (k, _) => alter (set_correct true) k l2'
      | None => l2'
      end in
  disable_option <$> l3.

Definition checkAnswer (j i : nat) (selectedAnswer correctAnswer : jsstring)
  : State -> State :=
  fun st =>
    let st1 :=
      set_questionsList
        (alter (fun it =>
                  set_optionElements
                    (checkAnswer_options (optionElements it) i
                       selectedAnswer correctAnswer) it)
               j (questionsList st)) st in
    if bool_decide (selectedAnswer = correctAnswer)
    then set_correctAnswers (S (correctAnswers st1)) st1
    else st1.

(** The click handler of option [i] of question [j]; [optionText] and
    [correctAnswer] are the [optionText] and [q.answer] it closed over. *)
Definition option_click (j i : nat) (optionText correctAnswer : jsstring)
  : State -> State :=
  fun st =>
    match questionsList st !! j with
    | Some it =>
        if answered it then st
        else
          (checkAnswer j i optionText correctAnswer
           >> (fun st => set_questionsList
                 (alter (set_answered true) j (questionsList st)) st)
           >> (fun st => set_answeredQuestions (S (answeredQuestions st)) st)
           >> (fun st =>
                 if Nat.eqb (answeredQuestions st) (totalQuestions st)
                 then displayResults st else st)) st
    | None => st
    end.

(** *** Rendering *)

Definition render_option (optionText : jsstring) : OptionEl :=
  mkOptionEl optionText false false false false false.

Definition render_question (index : nat) (q : QuizQuestion) : QuestionItem :=
  mkQuestionItem (nat_toString (index + 1) ++ str ". " ++ question q)
    (answer q) (render_option <$> options q) false.

Definition renderQuestions (questions : list QuizQuestion) : State -> State :=
  match questions with
  | [] =>
      displayError (str "No questions were generated. The transcript might be too short or unclear.")
  | _ =>
      set_totalQuestions (length questions)
      >> set_answeredQuestions 0
      >> set_correctAnswers 0
      >> (fun st => set_questionsList
            (questionsList st ++ imap render_question questions) st)
  end.

(** *** Generation *)

Definition nl : jsstring := [10%N].

Definition prompt_base : jsstring :=
  str "You are an expert at creating quizzes. Based on the following video transcript, please generate 5 insightful multiple-choice questions to test comprehension of the key topics. For each question, provide 4 distinct options, with one being the correct answer. The answer must be one of the options. Ensure the questions cover different parts of the transcript.".

Definition prompt_exclusion : jsstring :=
  nl ++ nl ++ str "IMPORTANT: Do NOT repeat any questions from this list. Generate a completely new and different set of questions. Here are the questions that have already been asked:" ++ nl ++ str " - ".

Definition prompt_transcript : jsstring :=
  nl ++ nl ++ str "Here is the transcript: " ++ nl ++ nl.

(** The [prompt] sent as [contents]. *)
Definition build_prompt (transcript : jsstring)
    (existingQuestions : list QuizQuestion) : jsstring :=
  let prompt := prompt_base in
  let prompt :=
    if Nat.ltb 0 (length existingQuestions) then
      let previousQuestionsText :=
        join (nl ++ str " - ") (question <$> existingQuestions) in
      prompt ++ prompt_exclusion ++ previousQuestionsText
    else prompt in
  prompt ++ prompt_transcript ++ transcript.

Arguments build_prompt : simpl never.

Definition embed_src (videoId : jsstring) : jsstring :=
  str "https://www.youtube.com/embed/" ++ videoId.

(** [generateQuiz] up to its [await]: the player is embedded when
    [videoId] is truthy, the output is cleared, and the request leaves. *)
Definition generateQuiz_call (who : Caller) (transcript : jsstring)
    (videoId : option jsstring) (existingQuestions : list QuizQuestion)
  : State -> State :=
  (fun st =>
     if truthy videoId
     then set_videoContainer [mkIframe (embed_src (default [] videoId))] st
     else st)
  >> set_outputContainer_hidden false
  >> clearOutput
  >> (fun st =>
        set_pending
          (pending st ++ [mkRequest who (build_prompt transcript existingQuestions)])
          st).

(** The [catch] block of [generateQuiz]; writing to the console changes no
    field of the model. *)
Definition generateQuiz_catch (message : option jsstring) : State -> State :=
  let errMessage :=
    match message with
    | Some msg => msg
    | None => str "An unknown error occurred."
    end in
  displayError (str "Failed to generate quiz. " ++ errMessage).

(** [renderQuestions] on a value of length [count > 0] that makes it throw:
    the counters are written, and the blocks of the elements that come
    before the throw are appended. *)
Definition renderQuestions_throws (rendered : list QuizQuestion) (count : nat)
  : State -> State :=
  set_totalQuestions count
  >> set_answeredQuestions 0
  >> set_correctAnswers 0
  >> (fun st => set_questionsList
        (questionsList st ++ imap render_question rendered) st).

(** [generateQuiz] from its [await] on: the rest of the [try] block, or
    the [catch] block, or the [try] block up to a throw and then the
    [catch] block. *)
Definition generateQuiz_resume (o : Outcome) : State -> State :=
  match o with
  | Resolved quizData =>
      (fun st => set_previousQuestions (previousQuestions st ++ quizData) st)
      >> renderQuestions quizData
  | Failed message => generateQuiz_catch message
  | Nonconforming written rendered count message =>
      (fun st => set_previousQuestions (previousQuestions st ++ written) st)
      >> renderQuestions_throws rendered count
      >> generateQuiz_catch message
  end.

(** *** Handlers *)

(** The submit handler up to the [await]. *)
Definition submit_begin : State -> State :=
  fun st =>
    let st := set_formError_hidden true st in
    let url := trim (urlInput_value st) in
    let transcript := trim (transcriptInput_value st) in
    let videoId := getYouTubeID url in
    if negb (truthy videoId) then
      (set_formError_textContent (str "Please enter a valid YouTube video URL.")
       >> set_formError_hidden false) st
    else if negb (truthy (Some transcript)) || Nat.ltb (length transcript) 100
    then
      (set_formError_textContent (str "Please paste the transcript. It must be at least 100 characters long.")
       >> set_formError_hidden false) st
    else
      (setLoading true
       >> clearOutput
       >> set_videoContainer []
       >> set_previousQuestions []
       >> generateQuiz_call (BySubmit transcript (default [] videoId))
            transcript videoId []) st.

(** The submit handler after the [await]. *)
Definition submit_end (transcript videoId : jsstring) : State -> State :=
  set_currentTranscript (Some transcript)
  >> set_currentVideoId (Some videoId)
  >> setLoading false.

(** Giving the focus to the URL field changes no field of the model. *)
Definition restart_click : State -> State :=
  set_outputContainer_hidden true
  >> set_videoContainer []
  >> clearOutput
  >> set_urlInput_value []
  >> set_transcriptInput_value []
  >> set_currentTranscript None
  >> set_currentVideoId None
  >> set_previousQuestions []
  >> set_formError_hidden true.

(** The retake handler up to the [await]. *)
Definition retake_begin : State -> State :=
  fun st =>
    match currentTranscript st with
    | Some transcript =>
        if truthy (currentTranscript st) && truthy (currentVideoId st) then
          (set_retakeBtn_disabled true
           >> set_restartBtn_disabled true
           >> set_retakeBtn_textContent (str "Generating...")
           >> set_loader_display display_block
           >> (fun st =>
                 generateQuiz_call ByRetake transcript None
                   (previousQuestions st) st)) st
        else st
    | None => st
    end.

(** The retake handler after the [await]. *)
Definition retake_end : State -> State :=
  set_loader_display display_none
  >> set_retakeBtn_disabled false
  >> set_restartBtn_disabled false
  >> set_retakeBtn_textContent (str "Generate New Questions").

(** A request settles: [generateQuiz] resumes, then the handler that
    awaited it, in the same turn of the event loop. *)
Definition settle (r : Request) (o : Outcome) : State -> State :=
  generateQuiz_resume o
  >> match caller r with
     | BySubmit transcript videoId => submit_end transcript videoId
     | ByRetake => retake_end
     end.

(** *** The event loop *)

Inductive Event : Type :=
  | InputUrl (s : jsstring)          (* the user edits the URL field *)
  | InputTranscript (s : jsstring)   (* the user edits the transcript *)
  | Submit                           (* [submit] on the form *)
  | ClickRestart
  | ClickRetake
  | ClickOption (j i : nat)          (* option [i] of question [j] *)
  | Settle (k : nat) (o : Outcome).  (* request [k] settles *)

(** One turn of the event loop; [None] when the page cannot deliver the
    event: a disabled button is not clicked, the form is not submitted
    through a disabled submit button, and only options and requests that
    exist are clicked and settled. *)
Definition step (st : State) (e : Event) : option State :=
  match e with
  | InputUrl s => Some (set_urlInput_value s st)
  | InputTranscript s => Some (set_transcriptInput_value s st)
  | Submit =>
      if generateBtn_disabled st then None else Some (submit_begin st)
  | ClickRestart =>
      if restartBtn_disabled st then None else Some (restart_click st)
  | ClickRetake =>
      if retakeBtn_disabled st then None else Some (retake_begin st)
  | ClickOption j i =>
      match questionsList st !! j with
      | Some it =>
          match optionElements it !! i with
          | Some opt => Some (option_click j i (value opt) (q_answer it) st)
          | None => None
          end
      | None => None
      end
  | Settle k o =>
      match pending st !! k with
      | Some r => Some (settle r o (set_pending (delete k (pending st)) st))
      | None => None
      end
  end.

Fixpoint run (st : State) (es : list Event) : option State :=
  match es with
  | [] => Some st
  | e :: es' =>
      match step st e with
      | Some st' => run st' es'
      | None => None
      end
  end.

Inductive reachable : State -> Prop :=
  | reachable_init : reachable init
  | reachable_step st e st' :
      reachable st -> step st e = Some st' -> reachable st'.

(** ** What the specification says, in its own words *)

Module Spec.

(** "Percentage = round(100 x correct / total)": the integer nearest to the
    exact quotient, a tie going up. *)
Definition percentage (correct total : nat) : Z :=
  ((2 * 100 * Z.of_nat correct + Z.of_nat total) / (2 * Z.of_nat total))%Z.

Inductive Tier : Type := Perfect | Great | NotBad | BetterLuck.

(** "Title tiers, evaluated in order, first match wins". *)
Definition tier (percentage : Z) : Tier :=
  if (percentage =? 100)%Z then Perfect
  else if (75 <=? percentage)%Z then Great
  else if (50 <=? percentage)%Z then NotBad
  else BetterLuck.

Definition tier_title (t : Tier) : jsstring :=
  match t with
  | Perfect => str "Perfect Score!"
  | Great => str "Great Job!"
  | NotBad => str "Not Bad!"
  | BetterLuck => str "Better Luck Next Time!"
  end.

(** The scoring claim at given counts: the percentage shown is the rounded
    exact quotient and the title shown starts with the title of its tier. *)
Definition scoring_claim (correct total : nat) : Prop :=
  to_Z (percentage_of correct total) = Some (percentage correct total)
  /\ tier_title (tier (percentage correct total))
       `prefix_of` title_of (percentage_of correct total).

(** The characters that end the token after a delimiter. *)
Definition separator (c : N) : bool := existsb (N.eqb c) (str "#&?").

Definition digit (c : N) : bool := (N.leb 48 c && N.leb c 57)%N.

(** The recognized URL forms, as the specification lists them:
    youtu.be/<id>, /v/<id>, /u/<digit>/<id>, /embed/<id>, watch?v=<id> and
    &v=<id>; each is the text that precedes the identifier. *)
Inductive url_form : jsstring -> Prop :=
  | form_youtu_be : url_form (str "youtu.be/")
  | form_v : url_form (str "/v/")
  | form_u d : digit d = true -> url_form (str "/u/" ++ d :: str "/")
  | form_embed : url_form (str "/embed/")
  | form_watch : url_form (str "watch?v=")
  | form_amp_v : url_form (str "&v=").

(** [url] is of a recognized form with the 11-character trailing token
    [tok]: the token follows the form and runs to the end of the string or
    to the first separator. *)
Definition recognized (url tok : jsstring) : Prop :=
  exists pre d rest,
    url = pre ++ d ++ tok ++ rest
    /\ url_form d
    /\ length tok = 11
    /\ Forall (fun c => separator c = false) tok
    /\ (rest = [] \/ exists c rest', rest = c :: rest' /\ separator c = true).

(** The extraction claim at a given string: the token of a recognized
    form is returned, and a string of no recognized form gives [None]. *)
Definition extraction_claim (url : jsstring) : Prop :=
  (forall tok, recognized url tok -> getYouTubeID url = Some tok)
  /\ ((forall tok, ~ recognized url tok) -> getYouTubeID url = None).

(** The failure claim at a state in which request [k] is outstanding: when
    the request fails, the transcript, the identifier and the history are
    what they were at the generator call. *)
Definition failure_claim (st : State) (k : nat) (message : option jsstring)
  : Prop :=
  forall st',
    step st (Settle k (Failed message)) = Some st' ->
    currentTranscript st' = currentTranscript st
    /\ currentVideoId st' = currentVideoId st
    /\ previousQuestions st' = previousQuestions st.

End Spec.

(** ** Tests used by the proofs *)

(** The scoring claim as a test, so that a range of counts is settled by
    evaluation. *)
Definition scoring_ok (c t : nat) : bool :=
  match to_Z (percentage_of c t) with
  | Some p =>
      (p =? Spec.percentage c t)%Z
      && bool_decide (Spec.tier_title (Spec.tier p)
                        `prefix_of` title_of (percentage_of c t))
  | None => false
  end.

Definition scoring_ok_upto (n : nat) : bool :=
  forallb (fun t => forallb (fun c => scoring_ok c t) (seq 0 (S t))) (seq 1 n).

(** ** Vocabulary of the statements *)

(** The index of the first option whose text is [ans]. *)
Definition first_index (ans : jsstring) (opts : list jsstring) : option nat :=
  fst <$> list_find (fun v => v = ans) opts.

(** Option [k] of a question block carries the class [correct]. *)
Definition marked_correct (it : QuestionItem) (k : nat) : Prop :=
  exists o, optionElements it !! k = Some o /\ correct o = true.

(** Option [k] of a question block carries [selected] and [incorrect]. *)
Definition marked_selected_incorrect (it : QuestionItem) (k : nat) : Prop :=
  exists o, optionElements it !! k = Some o
            /\ selected o = true /\ incorrect o = true.

(** "[answer] must equal exactly one element of [options]". *)
Definition exactly_one_option_is_answer (q : QuizQuestion) : Prop :=
  length (filter (fun v => v = answer q) (options q)) = 1.

(** Sample data for the worked cases: a well-formed question, one whose
    answer is none of its options, and a response of five questions. *)
Definition sample_question (n : nat) : QuizQuestion :=
  {| question := str "Question " ++ nat_toString n;
     options := [str "A"; str "B"; str "C"; str "D"];
     answer := str "B" |}.

Definition stray_question : QuizQuestion :=
  {| question := str "Question";
     options := [str "A"; str "B"; str "C"; str "D"];
     answer := str "E" |}.

Definition sample_quiz (from : nat) : list QuizQuestion :=
  sample_question <$> seq from 5.

Definition sample_url : jsstring :=
  str "https://www.youtube.com/watch?v=dQw4w9WgXcQ".

Definition sample_transcript : jsstring :=
  str "In this lecture we look at how plants turn light into sugar, why leaves are green, and what happens at night.".

(** *** What the pattern of [getYouTubeID] accepts *)

(** The texts group 1 of [regExp] matches: [.] stands for any character
    but a line terminator and [\w] for any word character. *)
Inductive delimiter : jsstring -> Prop :=
  | delim_youtu c :
      line_terminator c = false -> delimiter (str "youtu" ++ c :: str "be/")
  | delim_v : delimiter (str "v/")
  | delim_u c : word_char c = true -> delimiter (str "u/" ++ c :: str "/")
  | delim_embed : delimiter (str "embed/")
  | delim_watch : delimiter (str "watch?v=")
  | delim_amp_v : delimiter (str "&v=").

(** No line terminator occurs in [s]. *)
Definition one_line (s : jsstring) : Prop :=
  Forall (fun c => line_terminator c = false) s.

(** For a delimiter [d] that follows [pre] in [url]: it lies on the first
    line, and no delimiter starts further to the right on that line. *)
Definition last_delimiter (url pre d : jsstring) : Prop :=
  one_line pre
  /\ delimiter d
  /\ forall pre' d' rest',
       url = pre' ++ d' ++ rest' -> one_line pre' -> delimiter d' ->
       length pre' <= length pre.

(** [tok] is the token at the start of [s]: the characters up to the end
    of [s] or its first separator. *)
Definition token_of (s tok : jsstring) : Prop :=
  exists rest,
    s = tok ++ rest
    /\ Forall (fun c => Spec.separator c = false) tok
    /\ (rest = [] \/ exists c rest', rest = c :: rest' /\ Spec.separator c = true).

(** [tok] is the 11-character token after the rightmost delimiter of the
    first line of [url]. *)
Definition extracts (url tok : jsstring) : Prop :=
  exists pre d s,
    url = pre ++ d ++ s
    /\ last_delimiter url pre d
    /\ token_of s tok
    /\ length tok = 11.

(** *** Functions the proofs compute with *)

Fixpoint starts_with (p s : jsstring) : bool :=
  match p, s with
  | [], _ => true
  | a :: p', b :: s' => N.eqb b a && starts_with p' s'
  | _ :: _, [] => false
  end.

(** The length of the longest prefix of [s] made of characters of [cl]. *)
Fixpoint span (cl : cclass) (s : jsstring) : nat :=
  match s with
  | c :: s' => if cls_match cl c then S (span cl s') else 0
  | [] => 0
  end.

(** The length of the delimiter at the start of [s], if there is one. *)
Definition delim_len (s : jsstring) : option nat :=
  if starts_with (str "youtu") s
     && match drop 5 s with
        | c :: s' => cls_match CDot c && starts_with (str "be/") s'
        | [] => false
        end
  then Some 9
  else if starts_with (str "v/") s then Some 2
  else if starts_with (str "u/") s
          && match drop 2 s with
             | c :: s' => cls_match CWord c && starts_with (str "/") s'
             | [] => false
             end
  then Some 4
  else if starts_with (str "embed/") s then Some 6
  else if starts_with (str "watch?v=") s then Some 8
  else if starts_with (str "&v=") s then Some 3
  else None.

(** The captures of a match of [regExp] whose group 1 starts at the head
    of [s]. *)
Definition captures_at (s : jsstring) : option captures :=
  match delim_len s with
  | Some n =>
      Some [(2, take (span token_class (drop n s)) (drop n s)); (1, take n s)]
  | None => None
  end.

(** One of the forms of the specification starts at the head of [s]. *)
Definition url_form_at (s : jsstring) : bool :=
  starts_with (str "youtu.be/") s
  || starts_with (str "/v/") s
  || (starts_with (str "/u/") s
      && match drop 3 s with
         | c :: s' => Spec.digit c && starts_with (str "/") s'
         | [] => false
         end)
  || starts_with (str "/embed/") s
  || starts_with (str "watch?v=") s
  || starts_with (str "&v=") s.

(** [f] holds of some suffix of [s]. *)
Fixpoint any_suffix (f : jsstring -> bool) (s : jsstring) : bool :=
  f s || match s with
         | [] => false
         | _ :: s' => any_suffix f s'
         end.

(** [x] occurs in [s] as a contiguous piece. *)
Definition occurs_in (x s : jsstring) : Prop :=
  exists before after, s = before ++ x ++ after.

(** The user fills the form in and submits it. *)
Definition submit_sample : list Event :=
  [InputUrl sample_url; InputTranscript sample_transcript; Submit].

(** Option [i] of each of the first [n] questions is clicked, in order. *)
Definition answer_all (n i : nat) : list Event :=
  (fun j => ClickOption j i) <$> seq 0 n.

(** A first quiz is generated and answered in full. *)
Definition first_quiz : list Event :=
  submit_sample ++ [Settle 0 (Resolved (sample_quiz 1))] ++ answer_all 5 1.

(** Then new questions are asked for and, before they arrive, the form is
    submitted again. *)
Definition retake_then_submit : list Event :=
  first_quiz ++ [ClickRetake; Submit].

(** Both responses arrive and six of the ten questions shown are
    answered. *)
Definition both_arrive_six_answered : list Event :=
  retake_then_submit
  ++ [Settle 0 (Resolved (sample_quiz 6)); Settle 0 (Resolved (sample_quiz 11))]
  ++ answer_all 6 0.

(** The event loop when no generation is started while one is
    outstanding. *)
Definition step_exclusive (st : State) (e : Event) : option State :=
  match e with
  | Submit | ClickRetake =>
      match pending st with
      | [] => step st e
      | _ :: _ => None
      end
  | _ => step st e
  end.

Inductive reachable_exclusive : State -> Prop :=
  | reachable_exclusive_init : reachable_exclusive init
  | reachable_exclusive_step st e st' :
      reachable_exclusive st -> step_exclusive st e = Some st' ->
      reachable_exclusive st'.

(** The number of question blocks not answered yet. *)
Definition unanswered (l : list QuestionItem) : nat :=
  length (filter (fun it => answered it = false) l).

(** What holds of the counters as long as requests do not overlap: at
    most one request is outstanding, nothing is shown while it is, and the
    questions answered and those still open fit in [totalQuestions]. *)
Definition exclusive_inv (st : State) : Prop :=
  length (pending st) <= 1
  /\ (pending st <> [] -> questionsList st = [])
  /\ answeredQuestions st + unanswered (questionsList st) <= totalQuestions st.

(** The requests of a list that a given handler awaits. *)
Definition by_retake (r : Request) : bool :=
  match caller r with
  | ByRetake => true
  | BySubmit _ _ => false
  end.

Definition by_submit (r : Request) : bool := negb (by_retake r).

Fixpoint outstanding (p : Request -> bool) (l : list Request) : nat :=
  match l with
  | [] => 0
  | r :: l' => (if p r then 1 else 0) + outstanding p l'
  end.

(** What the buttons guarantee: a flow has a request outstanding exactly
    when its own button is disabled. *)
Definition flow_inv (st : State) : Prop :=
  outstanding by_submit (pending st)
  = (if generateBtn_disabled st then 1 else 0)
  /\ outstanding by_retake (pending st)
     = (if retakeBtn_disabled st then 1 else 0)
  /\ restartBtn_disabled st = retakeBtn_disabled st.

(** *** States of the worked cases *)

(** A quiz of two questions is on the page, the second with a stray
    answer. *)
Definition quiz_shown : State :=
  default init
    (run init (submit_sample
               ++ [Settle 0 (Resolved [sample_question 1; stray_question])])).

(** Its first question has been answered, with a wrong option. *)
Definition quiz_one_answered : State :=
  default init (step quiz_shown (ClickOption 0 0)).

(** A first quiz was answered, four answers out of five being right. *)
Definition four_of_five : State :=
  default init
    (run init (submit_sample
               ++ [Settle 0 (Resolved (sample_quiz 1)); ClickOption 0 0]
               ++ ((fun j => ClickOption j 1) <$> seq 1 4))).

(** A first quiz was answered in full. *)
Definition quiz_done : State := default init (run init first_quiz).

(** New questions were asked for and have not arrived. *)
Definition retake_pending : State :=
  default init (run init (first_quiz ++ [ClickRetake])).

(** ** Further vocabulary *)

(** What a stored session looks like: a transcript of at least 100 code
    units and an identifier of 11. *)
Definition valid_session (transcript videoId : jsstring) : Prop :=
  100 <= length transcript /\ length videoId = 11.

(** The session is absent, or present and valid; and every submit that is
    suspended resumes with a valid one. *)
Definition session_inv (st : State) : Prop :=
  (currentTranscript st = None /\ currentVideoId st = None
   \/ exists t v, currentTranscript st = Some t
                  /\ currentVideoId st = Some v /\ valid_session t v)
  /\ Forall (fun r => match caller r with
                      | BySubmit t v => valid_session t v
                      | ByRetake => True
                      end) (pending st).

(** Two states that differ at most in the form error. *)
Definition same_but_formError (st st' : State) : Prop :=
  set_formError_hidden true (set_formError_textContent [] st')
  = set_formError_hidden true (set_formError_textContent [] st).

Definition msg_invalid_url : jsstring :=
  str "Please enter a valid YouTube video URL.".

Definition msg_short_transcript : jsstring :=
  str "Please paste the transcript. It must be at least 100 characters long.".

Definition msg_no_questions : jsstring :=
  str "No questions were generated. The transcript might be too short or unclear.".

(** Runs of the event loop in which no generation is started while one is
    outstanding. *)
Fixpoint run_exclusive (st : State) (es : list Event) : option State :=
  match es with
  | [] => Some st
  | e :: es' =>
      match step_exclusive st e with
      | Some st' => run_exclusive st' es'
      | None => None
      end
  end.

(** What the page shows as long as requests do not overlap: while a request
    is outstanding no question is shown and the loader is on, and only
    then; the questions shown and answered add up to [totalQuestions]; the
    results are shown exactly when questions are shown and all of them are
    answered. *)
Definition page_inv (st : State) : Prop :=
  length (pending st) <= 1
  /\ (pending st <> [] -> questionsList st = [])
  /\ (questionsList st <> [] ->
      answeredQuestions st + unanswered (questionsList st) = totalQuestions st)
  /\ (resultsContainer_display st = display_block
      <-> questionsList st <> [] /\ unanswered (questionsList st) = 0)
  /\ (loader_display st = display_block <-> pending st <> []).

(** *** URLs in everyday forms *)

(** The alphabet of video identifiers: letters, digits, underscore and
    hyphen. *)
Definition id_char (c : N) : bool := word_char c || N.eqb c 45.

(** The text before the identifier in a watch URL, a short URL, an embed
    URL, an old player URL and a watch URL with [v] after other
    parameters. *)
Definition everyday_delimiters : list jsstring :=
  [str "watch?v="; str "youtu.be/"; str "embed/"; str "v/"; str "&v="].

(** [s] holds the two characters v= next to each other. *)
Fixpoint has_v_equals (s : jsstring) : bool :=
  match s with
  | c :: s' =>
      (N.eqb c 118 && match s' with
                      | c' :: _ => N.eqb c' 61
                      | [] => false
                      end)
      || has_v_equals s'
  | [] => false
  end.

(** What may follow the identifier: nothing, or a query or fragment that
    starts with #, & or ? and holds neither a slash nor v=. *)
Definition plain_tail (rest : jsstring) : bool :=
  match rest with
  | [] => true
  | c :: _ =>
      Spec.separator c
      && negb (existsb (N.eqb 47) rest)
      && negb (has_v_equals rest)
  end.

(** The title is "Perfect Score!" exactly when every answer was right, as a
    test, so that a range of counts is settled by evaluation. *)
Definition perfect_ok (c t : nat) : bool :=
  Bool.eqb (strict_eq (percentage_of c t) (Number_of_nat 100)) (Nat.eqb c t).

Definition perfect_ok_upto (n : nat) : bool :=
  forallb (fun t => forallb (fun c => perfect_ok c t) (seq 0 (S t))) (seq 1 n).

(** *** More states of the worked cases *)

(** The form is filled in and not yet submitted. *)
Definition form_filled : State :=
  default init
    (run init [InputUrl sample_url; InputTranscript sample_transcript]).

(** A bare identifier was typed in place of a URL. *)
Definition bare_id_typed : State :=
  default init
    (run init [InputUrl (str "dQw4w9WgXcQ"); InputTranscript sample_transcript]).

(** The form was submitted and the response has not arrived. *)
Definition submit_pending : State := default init (run init submit_sample).

(** ** Scoring *)

Section Scoring.

Lemma scoring_ok_sound c t : scoring_ok c t = true -> Spec.scoring_claim c t.
Proof.
  unfold scoring_ok, Spec.scoring_claim.
  destruct (to_Z (percentage_of c t)) as [p|]; [|discriminate].
  intros [Hp Ht]%andb_prop.
  apply Z.eqb_eq in Hp. apply bool_decide_eq_true in Ht.
  subst p. split; [reflexivity | exact Ht].
Qed.

Lemma scoring_ok_upto_sound n c t :
  scoring_ok_upto n = true -> 0 < t <= n -> c <= t -> scoring_ok c t = true.
Proof.
  unfold scoring_ok_upto. rewrite forallb_forall. intros H Ht Hc.
  specialize (H t). rewrite forallb_forall in H.
  apply H; apply in_seq; lia.
Qed.

Lemma scoring_ok_39 : scoring_ok_upto 39 = true.
Proof. vm_compute. reflexivity. Qed.

(** [displayResults] shows the title of the percentage it computes. *)
Lemma displayResults_title st :
  resultsTitle_textContent (displayResults st)
  = title_of (percentage_of (correctAnswers st) (totalQuestions st))
  /\ resultsContainer_display (displayResults st) = display_block.
Proof. split; reflexivity. Qed.

(** C5. For all counts correct <= total with 0 < total < 40, the percentage
    [displayResults] computes is round(100 x correct / total), and the
    title it shows is that of the first matching tier: "Perfect Score!" at
    100, "Great Job!" from 75, "Not Bad!" from 50, "Better Luck Next
    Time!" below. The four scenarios 5/5, 4/5, 3/5 and 1/5 are among these
    counts. *)
Theorem scoring_below_40 st :
  0 < totalQuestions st < 40 ->
  correctAnswers st <= totalQuestions st ->
  to_Z (percentage_of (correctAnswers st) (totalQuestions st))
  = Some (Spec.percentage (correctAnswers st) (totalQuestions st))
  /\ Spec.tier_title
       (Spec.tier (Spec.percentage (correctAnswers st) (totalQuestions st)))
     `prefix_of` resultsTitle_textContent (displayResults st)
  /\ resultsContainer_display (displayResults st) = display_block.
Proof.
  intros Ht Hc.
  destruct (scoring_ok_sound (correctAnswers st) (totalQuestions st))
    as [Hp Htitle].
  { apply (scoring_ok_upto_sound 39); [exact scoring_ok_39 | lia | exact Hc]. }
  split; [exact Hp|]. split; [|reflexivity].
  exact Htitle.
Qed.

(** Counterexample to C5 as stated, at 23 correct answers out of 40: the
    quotient 23/40 times 100 is 57.49999999999999 in double precision,
    which rounds to 57, while 100 x 23 / 40 = 57.5 rounds to 58. *)
Lemma scoring_claim_fails_23_of_40 :
  23 <= 40 /\ 0 < 40
  /\ to_Z (percentage_of 23 40) = Some 57%Z
  /\ Spec.percentage 23 40 = 58%Z
  /\ ~ Spec.scoring_claim 23 40.
Proof.
  split; [lia|]. split; [lia|].
  split; [vm_compute; reflexivity|]. split; [vm_compute; reflexivity|].
  intros [H _]. vm_compute in H. discriminate H.
Qed.

(** The four scoring scenarios of the specification. *)
Lemma scoring_scenarios :
  Forall (fun '(c, t, p, title) =>
            to_Z (percentage_of c t) = Some p
            /\ Spec.percentage c t = p
            /\ Spec.tier_title title `prefix_of` title_of (percentage_of c t))
    [(5, 5, 100%Z, Spec.Perfect); (4, 5, 80%Z, Spec.Great);
     (3, 5, 60%Z, Spec.NotBad); (1, 5, 20%Z, Spec.BetterLuck)].
Proof.
  repeat (apply Forall_cons; split;
          [split; [vm_compute; reflexivity|];
           split; [vm_compute; reflexivity|];
           apply (bool_decide_eq_true_1 _); vm_compute; reflexivity|]).
  now apply Forall_nil.
Qed.

End Scoring.

(** ** Answering a question *)

Section Answering.

Implicit Types (st : State) (it : QuestionItem) (q : QuizQuestion).
Implicit Types (opts : list jsstring) (l : list OptionEl).

Lemma list_find_value l opts ans :
  value <$> l = opts ->
  fst <$> list_find (fun o => value o = ans) l = first_index ans opts.
Proof.
  intros <-. unfold first_index. rewrite list_find_fmap.
  destruct (list_find _ l) as [[k o]|]; reflexivity.
Qed.

Lemma value_alter (f : OptionEl -> OptionEl) i l :
  (forall o, value (f o) = value o) ->
  value <$> alter f i l = value <$> l.
Proof.
  intros Hf. rewrite (list_fmap_alter value f id)
    by (apply Forall_forall; intros o _; apply Hf).
  now apply list_alter_id.
Qed.

Lemma value_render opts : value <$> (render_option <$> opts) = opts.
Proof.
  rewrite <- list_fmap_compose. rewrite <- (list_fmap_id opts) at 2.
  apply list_fmap_ext; intros; reflexivity.
Qed.

(** The labels of a freshly rendered question after [checkAnswer], option
    by option. *)
Lemma checkAnswer_options_lookup opts i sel ans k v :
  opts !! i = Some sel -> opts !! k = Some v ->
  checkAnswer_options (render_option <$> opts) i sel ans !! k =
    Some (mkOptionEl v (bool_decide (k = i))
            (if bool_decide (sel = ans) then bool_decide (k = i)
             else bool_decide (first_index ans opts = Some k))
            (negb (bool_decide (sel = ans)) && bool_decide (k = i))
            true true).
Proof.
  intros Hi Hk. unfold checkAnswer_options.
  rewrite list_lookup_fmap.
  destruct (bool_decide (sel = ans)) eqn:Hsel.
  - destruct (decide (k = i)) as [->|Hne].
    + rewrite !list_lookup_alter_eq, !list_lookup_fmap, Hk. simpl.
      rewrite bool_decide_eq_true_2 by reflexivity. reflexivity.
    + rewrite !list_lookup_alter_ne, !list_lookup_fmap, Hk by congruence.
      simpl. rewrite bool_decide_eq_false_2 by congruence. reflexivity.
  - set (l2' := alter (set_incorrect true) i _).
    assert (Hval : value <$> l2' = opts).
    { unfold l2'. rewrite !value_alter by reflexivity.
      rewrite <- !list_fmap_compose. rewrite <- (list_fmap_id opts) at 2.
      apply list_fmap_ext; intros; reflexivity. }
    assert (Hl2 : l2' !! k =
      Some (mkOptionEl v (bool_decide (k = i)) false (bool_decide (k = i))
              false false)).
    { unfold l2'. destruct (decide (k = i)) as [->|Hne].
      - rewrite !list_lookup_alter_eq, !list_lookup_fmap, Hk. simpl.
        rewrite bool_decide_eq_true_2 by reflexivity. reflexivity.
      - rewrite !list_lookup_alter_ne, !list_lookup_fmap, Hk by congruence.
        simpl. rewrite bool_decide_eq_false_2 by congruence. reflexivity. }
    pose proof (list_find_value l2' opts ans Hval) as Hfind.
    destruct (list_find _ l2') as [[kc oc]|]; simpl in Hfind; rewrite <- Hfind.
    + destruct (decide (k = kc)) as [->|Hne].
      * rewrite list_lookup_alter_eq, Hl2. simpl.
        rewrite (bool_decide_eq_true_2 (Some kc = Some kc)) by reflexivity.
        now destruct (bool_decide (kc = i)).
      * rewrite list_lookup_alter_ne, Hl2 by congruence. simpl.
        rewrite (bool_decide_eq_false_2 (Some kc = Some k)) by congruence.
        now destruct (bool_decide (k = i)).
    + rewrite Hl2. simpl. now destruct (bool_decide (k = i)).
Qed.

Lemma checkAnswer_options_length l i sel ans :
  length (checkAnswer_options l i sel ans) = length l.
Proof.
  unfold checkAnswer_options. rewrite length_fmap.
  destruct (bool_decide _).
  - now rewrite !length_alter, length_fmap.
  - destruct (list_find _ _) as [[k o]|];
      now rewrite !length_alter, length_fmap.
Qed.

Lemma first_index_Some ans opts k :
  first_index ans opts = Some k -> opts !! k = Some ans.
Proof.
  unfold first_index. destruct (list_find _ opts) as [[k' v]|] eqn:Hf;
    [|discriminate].
  intros [= <-]. apply list_find_Some in Hf as (Hk & -> & _). exact Hk.
Qed.

Lemma first_index_None ans opts k :
  first_index ans opts = None -> opts !! k <> Some ans.
Proof.
  unfold first_index. destruct (list_find _ opts) as [[k' v]|] eqn:Hf;
    [discriminate|].
  intros _ Hk. apply list_find_None in Hf.
  rewrite Forall_forall in Hf. apply (Hf ans); [|reflexivity].
  eapply list_elem_of_lookup_2, Hk.
Qed.

(** Rendering a set of [N > 0] questions resets the counters to [N], 0
    and 0 and appends one block per question. *)
Lemma renderQuestions_counters q qs st :
  let st' := renderQuestions (q :: qs) st in
  totalQuestions st' = length (q :: qs)
  /\ answeredQuestions st' = 0
  /\ correctAnswers st' = 0
  /\ questionsList st'
     = questionsList st ++ imap render_question (q :: qs).
Proof. repeat split. Qed.

(** The first click on an option of an unanswered question. *)
Lemma option_click_unanswered st j i it opt :
  questionsList st !! j = Some it ->
  answered it = false ->
  let st' := option_click j i (value opt) (q_answer it) st in
  questionsList st' !! j =
    Some (set_answered true
            (set_optionElements
               (checkAnswer_options (optionElements it) i (value opt)
                  (q_answer it)) it))
  /\ answeredQuestions st' = S (answeredQuestions st)
  /\ correctAnswers st' =
       (if bool_decide (value opt = q_answer it) then S (correctAnswers st)
        else correctAnswers st)
  /\ totalQuestions st' = totalQuestions st
  /\ errorMessage_hidden st' = errorMessage_hidden st
  /\ errorMessage_textContent st' = errorMessage_textContent st.
Proof.
  intros Hj Hans. unfold option_click. rewrite Hj, Hans.
  unfold andThen, checkAnswer.
  destruct (bool_decide (value opt = q_answer it));
    match goal with
    | |- context [if ?c then displayResults _ else _] => destruct c
    end;
    simpl; rewrite !list_lookup_alter_eq, Hj; simpl; repeat split.
Qed.

(** C7. Locking is idempotent: a click on any option of a question that
    has been answered leaves the whole state as it is (no counter and no
    marking changes), and the first click on an option of an unanswered
    question locks it; so a question goes from unanswered to locked once. *)
Theorem locking_idempotent st j i it opt :
  questionsList st !! j = Some it ->
  optionElements it !! i = Some opt ->
  (answered it = true -> step st (ClickOption j i) = Some st)
  /\ (answered it = false ->
      exists st' it',
        step st (ClickOption j i) = Some st'
        /\ questionsList st' !! j = Some it'
        /\ answered it' = true).
Proof.
  intros Hj Hi. split; intros Hans; simpl; rewrite Hj, Hi.
  - unfold option_click. now rewrite Hj, Hans.
  - destruct (option_click_unanswered st j i it opt Hj Hans) as (Hq & _).
    eexists _, _. split; [reflexivity|]. split; [exact Hq | reflexivity].
Qed.

(** A click on an option of a block that has the class [answered] returns
    at the first line of the handler. *)
Lemma answered_click_ignored st j k it o :
  questionsList st !! j = Some it ->
  answered it = true ->
  optionElements it !! k = Some o ->
  step st (ClickOption j k) = Some st.
Proof.
  intros Hj Ha Hk. cbn [step]. rewrite Hj, Hk.
  unfold option_click. now rewrite Hj, Ha.
Qed.

(** C10. When the answer of a rendered question is none of its options,
    answering with any option marks that option selected and incorrect,
    marks no option correct, leaves [correctAnswers] and the error block as
    they were, adds one to [answeredQuestions] and locks the question: the
    block gets the class the click handler tests, every one of its options
    is still there and has its input disabled, and a further click on any
    of them changes nothing. *)
Theorem answer_outside_options st j i index q optionText :
  questionsList st !! j = Some (render_question index q) ->
  options q !! i = Some optionText ->
  answer q ∉ options q ->
  exists st' it',
    step st (ClickOption j i) = Some st'
    /\ questionsList st' !! j = Some it'
    /\ answered it' = true
    /\ marked_selected_incorrect it' i
    /\ (forall k, ~ marked_correct it' k)
    /\ correctAnswers st' = correctAnswers st
    /\ answeredQuestions st' = S (answeredQuestions st)
    /\ errorMessage_hidden st' = errorMessage_hidden st
    /\ errorMessage_textContent st' = errorMessage_textContent st
    /\ length (optionElements it') = length (options q)
    /\ (forall k o,
          optionElements it' !! k = Some o ->
          input_disabled o = true /\ cursor_default o = true)
    /\ (forall k o,
          optionElements it' !! k = Some o ->
          step st' (ClickOption j k) = Some st').
Proof.
  intros Hj Hi Hnot.
  assert (Hne : optionText <> answer q).
  { intros ->. apply Hnot. eapply list_elem_of_lookup_2, Hi. }
  assert (Hfirst : first_index (answer q) (options q) = None).
  { destruct (first_index _ _) as [k|] eqn:Hf; [|reflexivity].
    exfalso. apply Hnot. eapply list_elem_of_lookup_2, first_index_Some, Hf. }
  set (opt := render_option optionText).
  assert (Hopt : optionElements (render_question index q) !! i = Some opt).
  { simpl. now rewrite list_lookup_fmap, Hi. }
  destruct (option_click_unanswered st j i _ opt Hj eq_refl)
    as (Hq & Ha & Hc & _ & He1 & He2).
  simpl in Hq, Hc.
  rewrite bool_decide_eq_false_2 in Hc by exact Hne.
  eexists _, _. split; [simpl; rewrite Hj, Hopt; reflexivity|].
  split; [exact Hq|]. split; [reflexivity|].
  split; [|split; [|split; [exact Hc|split; [exact Ha|split; [exact He1|
    split; [exact He2|]]]]]].
  - eexists. simpl. split.
    + apply (checkAnswer_options_lookup _ i _ _ i optionText Hi Hi).
    + simpl. rewrite (bool_decide_eq_false_2 (optionText = answer q)) by exact Hne.
      rewrite bool_decide_eq_true_2 by reflexivity. now split.
  - intros k (o & Hk & Hcor). simpl in Hk.
    destruct (options q !! k) as [v|] eqn:Hv.
    + rewrite (checkAnswer_options_lookup _ i _ _ k v Hi Hv) in Hk.
      injection Hk as <-. simpl in Hcor.
      rewrite (bool_decide_eq_false_2 (optionText = answer q)) in Hcor
        by exact Hne.
      rewrite Hfirst in Hcor.
      now rewrite bool_decide_eq_false_2 in Hcor by discriminate.
    + apply lookup_lt_Some in Hk.
      rewrite checkAnswer_options_length, length_fmap in Hk.
      apply lookup_ge_None in Hv. lia.
  - split; [simpl; now rewrite checkAnswer_options_length, length_fmap|].
    split.
    + intros k o Hk. simpl in Hk.
      destruct (options q !! k) as [v|] eqn:Hv.
      * rewrite (checkAnswer_options_lookup _ i _ _ k v Hi Hv) in Hk.
        injection Hk as <-. split; reflexivity.
      * apply lookup_lt_Some in Hk.
        rewrite checkAnswer_options_length, length_fmap in Hk.
        apply lookup_ge_None in Hv. lia.
    + intros k o Hk.
      exact (answered_click_ignored _ j k _ o Hq eq_refl Hk).
Qed.

Lemma filter_none_lookup (a : jsstring) (l : list jsstring) k :
  length (filter (fun v => v = a) l) = 0 -> l !! k <> Some a.
Proof.
  revert k. induction l as [|x l IH]; intros k; [now destruct k|].
  rewrite filter_cons. destruct (decide (x = a)) as [->|Hne]; [discriminate|].
  intros H. destruct k as [|k]; simpl; [congruence|]. now apply IH.
Qed.

Lemma exactly_one_index (a : jsstring) (l : list jsstring) :
  length (filter (fun v => v = a) l) = 1 ->
  exists k, l !! k = Some a /\ forall k', l !! k' = Some a -> k' = k.
Proof.
  induction l as [|x l IH]; [discriminate|].
  rewrite filter_cons. destruct (decide (x = a)) as [->|Hne].
  - intros [= H]. exists 0. split; [reflexivity|].
    intros [|k'] Hk'; [reflexivity|]. simpl in Hk'.
    now apply filter_none_lookup with (k := k') in H.
  - intros H. destruct (IH H) as (k & Hk & Huniq). exists (S k).
    split; [exact Hk|]. intros [|k'] Hk'; simpl in Hk'; [congruence|].
    f_equal. now apply Huniq.
Qed.

(** C6. When the answer of a rendered question is exactly one of its
    options, then after the question is answered exactly one option is
    marked correct, the one whose text is the answer, and at most one
    option is marked selected and incorrect. *)
Theorem one_option_marked_correct st j i index q optionText :
  questionsList st !! j = Some (render_question index q) ->
  options q !! i = Some optionText ->
  exactly_one_option_is_answer q ->
  exists st' it' k o,
    step st (ClickOption j i) = Some st'
    /\ questionsList st' !! j = Some it'
    /\ answered it' = true
    /\ optionElements it' !! k = Some o
    /\ value o = answer q
    /\ correct o = true
    /\ (forall k', marked_correct it' k' -> k' = k)
    /\ (forall k1 k2,
          marked_selected_incorrect it' k1 ->
          marked_selected_incorrect it' k2 -> k1 = k2).
Proof.
  intros Hj Hi (ka & Hka & Huniq)%exactly_one_index.
  assert (Hfirst : first_index (answer q) (options q) = Some ka).
  { destruct (first_index _ _) as [k|] eqn:Hf.
    - f_equal. apply Huniq. now apply first_index_Some.
    - exfalso. exact (first_index_None _ _ ka Hf Hka). }
  set (opt := render_option optionText).
  assert (Hopt : optionElements (render_question index q) !! i = Some opt).
  { simpl. now rewrite list_lookup_fmap, Hi. }
  destruct (option_click_unanswered st j i _ opt Hj eq_refl) as (Hq & _).
  simpl in Hq.
  pose proof (checkAnswer_options_lookup (options q) i optionText (answer q))
    as Hlook.
  eexists _, _, ka, _. split; [simpl; rewrite Hj, Hopt; reflexivity|].
  split; [exact Hq|]. split; [reflexivity|].
  split; [simpl; apply (Hlook ka _ Hi Hka)|].
  split; [reflexivity|]. split; [|split].
  - simpl. destruct (bool_decide (optionText = answer q)) eqn:Hsel.
    + apply bool_decide_eq_true in Hsel. subst optionText.
      apply bool_decide_eq_true_2. symmetry. now apply Huniq.
    + rewrite Hfirst. now apply bool_decide_eq_true_2.
  - intros k' (o' & Hk' & Hcor). simpl in Hk'.
    destruct (options q !! k') as [v|] eqn:Hv.
    + rewrite (Hlook k' v Hi Hv) in Hk'. injection Hk' as <-. simpl in Hcor.
      destruct (bool_decide (optionText = answer q)) eqn:Hsel.
      * apply bool_decide_eq_true in Hsel, Hcor. subst optionText k'.
        now apply Huniq.
      * rewrite Hfirst in Hcor. apply bool_decide_eq_true in Hcor.
        congruence.
    + apply lookup_lt_Some in Hk'.
      rewrite checkAnswer_options_length, length_fmap in Hk'.
      apply lookup_ge_None in Hv. lia.
  - assert (Hsi : forall k, marked_selected_incorrect
        (set_answered true
           (set_optionElements
              (checkAnswer_options (render_option <$> options q) i optionText
                 (answer q)) (render_question index q))) k -> k = i).
    { intros k (o & Hk & _ & Hinc). simpl in Hk.
      destruct (options q !! k) as [v|] eqn:Hv.
      - rewrite (Hlook k v Hi Hv) in Hk. injection Hk as <-. simpl in Hinc.
        apply andb_prop in Hinc as [_ Hki].
        now apply bool_decide_eq_true in Hki.
      - apply lookup_lt_Some in Hk.
        rewrite checkAnswer_options_length, length_fmap in Hk.
        apply lookup_ge_None in Hv. lia. }
    intros k1 k2 H1 H2. rewrite (Hsi k1 H1), (Hsi k2 H2). reflexivity.
Qed.

End Answering.

(** ** Identifier extraction *)

Section Extraction.

Context {R : Type}.
Implicit Types (s p : jsstring) (cs : captures).

Lemma starts_with_app p s :
  starts_with p s = true -> s = p ++ drop (length p) s.
Proof.
  revert s. induction p as [|a p IH]; intros [|b s]; simpl; try discriminate;
    try reflexivity.
  intros [Hb Hp]%andb_prop. apply N.eqb_eq in Hb. subst b.
  f_equal. now apply IH.
Qed.

Lemma starts_with_prefix p s : starts_with p (p ++ s) = true.
Proof.
  induction p as [|a p IH]; simpl; [reflexivity|].
  now rewrite N.eqb_refl, IH.
Qed.

(** A run of literals matches exactly when the input starts with it. *)
Lemma m_lit (p : string) pos s cs
    (k : nat -> jsstring -> captures -> option R) :
  m (lit p) pos s cs k =
    if starts_with (str p) s
    then k (pos + length (str p)) (drop (length (str p)) s) cs
    else None.
Proof.
  unfold lit. generalize (str p) as l. intros l. revert pos s.
  induction l as [|a l IH]; intros pos s; simpl.
  - now rewrite Nat.add_0_r.
  - destruct s as [|b s]; [reflexivity|]. simpl.
    destruct (N.eqb b a); simpl; [|reflexivity].
    rewrite IH. now rewrite Nat.add_succ_r.
Qed.

(** A greedy star before a continuation that cannot fail takes the whole
    span. *)
Lemma star_m_total cl pos s (k : nat -> jsstring -> option R) :
  (forall n s', is_Some (k n s')) ->
  star_m cl pos s k = k (pos + span cl s) (drop (span cl s) s).
Proof.
  intros Hk. revert pos. induction s as [|c s IH]; intros pos; simpl.
  - now rewrite Nat.add_0_r.
  - destruct (cls_match cl c); simpl.
    + rewrite IH, Nat.add_succ_r. simpl.
      destruct (Hk (S (pos + span cl s)) (drop (span cl s) s)) as [r Hr].
      now rewrite Hr.
    + now rewrite Nat.add_0_r.
Qed.

Lemma first_Some (x y : option R) :
  is_Some x -> match x with Some r => Some r | None => y end = x.
Proof. now intros [r ->]. Qed.

Lemma drop_cons_drop n k s c s' :
  drop n s = c :: s' -> drop (S n + k) s = drop k s'.
Proof.
  intros H. rewrite <- (drop_drop s k (S n)).
  replace (S n) with (n + 1) by lia. rewrite <- (drop_drop s 1 n), H.
  reflexivity.
Qed.

(** The alternation of group 1 before a continuation that cannot fail. *)
Lemma m_delimiters pos s cs (k : nat -> jsstring -> captures -> option R) :
  (forall n s' cs', is_Some (k n s' cs')) ->
  m delimiters pos s cs k =
    match delim_len s with
    | Some n => k (pos + n) (drop n s) cs
    | None => None
    end.
Proof.
  intros Hk. unfold delimiters, delim_len. cbn [m]. rewrite !m_lit.
  change (length (str "youtu")) with 5. change (length (str "v/")) with 2.
  change (length (str "u/")) with 2. change (length (str "embed/")) with 6.
  change (length (str "watch?v=")) with 8. change (length (str "&v=")) with 3.
  assert (Hyoutu :
    (if starts_with (str "youtu") s
     then match drop 5 s with
          | [] => None
          | c :: s' =>
              if cls_match CDot c
              then m (lit "be/") (S (pos + 5)) s' cs k else None
          end
     else None) =
    if starts_with (str "youtu") s
       && match drop 5 s with
          | c :: s' => cls_match CDot c && starts_with (str "be/") s'
          | [] => false
          end
    then k (pos + 9) (drop 9 s) cs else None).
  { destruct (starts_with (str "youtu") s); [|reflexivity].
    destruct (drop 5 s) as [|c s'] eqn:Hd; [reflexivity|].
    destruct (cls_match CDot c); [|reflexivity].
    rewrite m_lit. change (length (str "be/")) with 3. cbn [andb].
    destruct (starts_with (str "be/") s'); [|reflexivity].
    rewrite <- (drop_cons_drop 5 3 s c s' Hd). f_equal. lia. }
  assert (Hu :
    (if starts_with (str "u/") s
     then match drop 2 s with
          | [] => None
          | c :: s' =>
              if cls_match CWord c
              then m (lit "/") (S (pos + 2)) s' cs k else None
          end
     else None) =
    if starts_with (str "u/") s
       && match drop 2 s with
          | c :: s' => cls_match CWord c && starts_with (str "/") s'
          | [] => false
          end
    then k (pos + 4) (drop 4 s) cs else None).
  { destruct (starts_with (str "u/") s); [|reflexivity].
    destruct (drop 2 s) as [|c s'] eqn:Hd; [reflexivity|].
    destruct (cls_match CWord c); [|reflexivity].
    rewrite m_lit. change (length (str "/")) with 1. cbn [andb].
    destruct (starts_with (str "/") s'); [|reflexivity].
    rewrite <- (drop_cons_drop 2 1 s c s' Hd). f_equal. lia. }
  rewrite Hyoutu, Hu. clear Hyoutu Hu.
  repeat match goal with
         | |- context [if ?c then _ else _] =>
             destruct c;
               [first [now rewrite first_Some by apply Hk | reflexivity]|]
         end.
  reflexivity.
Qed.

End Extraction.

Section ExtractionMatch.

Implicit Types (s url tok : jsstring) (cs : captures).

Lemma star_m_ext {R} cl pos s (k k' : nat -> jsstring -> option R) :
  (forall n s', k n s' = k' n s') -> star_m cl pos s k = star_m cl pos s k'.
Proof.
  intros Hk. revert pos. induction s as [|c s IH]; intros pos; simpl.
  - apply Hk.
  - rewrite IH, Hk. reflexivity.
Qed.

(** Group 2 and the trailing star always match, group 2 taking the whole
    token. *)
Lemma m_token_tail pos s cs :
  m (RSeq (RGroup 2 (RStar token_class)) (RStar CDot)) pos s cs
    (fun _ _ cs' => Some cs')
  = Some ((2, take (span token_class s) s) :: cs).
Proof.
  cbn [m]. rewrite star_m_total.
  - rewrite star_m_total by (intros; eexists; reflexivity).
    now replace (pos + span token_class s - pos) with (span token_class s)
      by lia.
  - intros n s'. rewrite star_m_total by (intros; eexists; reflexivity).
    eexists; reflexivity.
Qed.

(** The pattern from group 1 on, at index [pos]. *)
Lemma m_from_group1 pos s :
  m (RSeq (RGroup 1 delimiters)
       (RSeq (RGroup 2 (RStar token_class)) (RStar CDot))) pos s []
    (fun _ _ cs' => Some cs')
  = captures_at s.
Proof.
  cbn [m]. rewrite m_delimiters.
  - unfold captures_at. destruct (delim_len s) as [n|]; [|reflexivity].
    rewrite star_m_total.
    + rewrite star_m_total by (intros; eexists; reflexivity).
      replace (pos + n + span token_class (drop n s) - (pos + n))
        with (span token_class (drop n s)) by lia.
      now replace (pos + n - pos) with n by lia.
    + intros n' s'. rewrite star_m_total by (intros; eexists; reflexivity).
      eexists; reflexivity.
  - intros n s' cs'. rewrite star_m_total.
    + rewrite star_m_total by (intros; eexists; reflexivity).
      eexists; reflexivity.
    + intros n' s''. rewrite star_m_total by (intros; eexists; reflexivity).
      eexists; reflexivity.
Qed.

(** The whole pattern at index 0: the greedy star decides where group 1
    starts. *)
Lemma m_regExp url :
  m regExp 0 url [] (fun _ _ cs' => Some cs')
  = star_m CDot 0 url (fun _ s => captures_at s).
Proof.
  unfold regExp. cbn [m Nat.eqb].
  apply star_m_ext. intros n s'.
  exact (m_from_group1 n s').
Qed.

Lemma exec_from_anchored r pos s :
  0 < pos -> exec_from (RSeq RBol r) pos s = None.
Proof.
  revert pos. induction s as [|c s IH]; intros pos Hpos;
    destruct pos as [|pos]; try lia; cbn [exec_from m Nat.eqb].
  - reflexivity.
  - apply IH. lia.
Qed.

Lemma String_match_regExp url :
  String_match url regExp = star_m CDot 0 url (fun _ s => captures_at s).
Proof.
  unfold String_match. rewrite <- m_regExp.
  destruct url as [|c s]; cbn [exec_from].
  - now destruct (m regExp 0 [] [] _).
  - destruct (m regExp 0 (c :: s) [] _); [reflexivity|].
    apply exec_from_anchored. lia.
Qed.

(** A greedy star fails exactly when its continuation fails at every
    index of the span. *)
Lemma star_m_None {R} cl pos s (f : jsstring -> option R) :
  star_m cl pos s (fun _ s' => f s') = None
  <-> forall n, n <= span cl s -> f (drop n s) = None.
Proof.
  revert pos. induction s as [|c s IH]; intros pos; simpl.
  - split.
    + intros H n Hn. now replace n with 0 by lia.
    + intros H. apply (H 0). lia.
  - destruct (cls_match cl c).
    + specialize (IH (S pos)).
      destruct (star_m cl (S pos) s _) as [r|].
      * split; [discriminate|]. intros H.
        assert (Some r = None) as [=]. apply IH; [|reflexivity..].
        intros n Hn. apply (H (S n)). lia.
      * split.
        -- intros H [|n] Hn; [exact H|]. simpl. apply IH; [reflexivity|lia].
        -- intros H. apply (H 0). lia.
    + split.
      * intros H n Hn. now replace n with 0 by lia.
      * intros H. apply (H 0). lia.
Qed.

(** It succeeds with the result of its continuation at the rightmost index
    of the span at which the continuation succeeds. *)
Lemma star_m_Some {R} cl pos s (f : jsstring -> option R) r :
  star_m cl pos s (fun _ s' => f s') = Some r
  <-> exists n, n <= span cl s /\ f (drop n s) = Some r
                /\ forall n', n < n' <= span cl s -> f (drop n' s) = None.
Proof.
  revert pos. induction s as [|c s IH]; intros pos; simpl.
  - split.
    + intros H. exists 0. split; [lia|]. split; [exact H|]. intros; lia.
    + intros (n & Hn & H & _). now replace n with 0 in H by lia.
  - destruct (cls_match cl c).
    + specialize (IH (S pos)).
      destruct (star_m cl (S pos) s _) as [r'|] eqn:Hs.
      * split.
        -- intros H. apply IH in H as (n & Hn & Hf & Hlater).
           exists (S n). split; [lia|]. split; [exact Hf|].
           intros [|n'] Hn'; [lia|]. simpl. apply Hlater. lia.
        -- intros ([|n] & Hn & Hf & Hlater).
           ++ assert (Hnone : star_m cl (S pos) s (fun _ s' => f s') = None).
              { apply star_m_None. intros n' Hn'. apply (Hlater (S n')). lia. }
              congruence.
           ++ apply IH. exists n. split; [lia|]. split; [exact Hf|].
              intros n' Hn'. apply (Hlater (S n')). lia.
      * pose proof (proj1 (star_m_None cl (S pos) s f) Hs) as Hnone.
        split.
        -- intros H. exists 0. split; [lia|]. split; [exact H|].
           intros [|n'] Hn'; [lia|]. simpl. apply Hnone. lia.
        -- intros ([|n] & Hn & Hf & _); [exact Hf|].
           simpl in Hf. rewrite Hnone in Hf by lia. discriminate.
    + split.
      * intros H. exists 0. split; [lia|]. split; [exact H|]. intros; lia.
      * intros (n & Hn & H & _). now replace n with 0 in H by lia.
Qed.

Lemma span_le_length cl s : span cl s <= length s.
Proof.
  induction s as [|c s IH]; simpl; [lia|]. destruct (cls_match cl c); simpl; lia.
Qed.

Lemma span_prefix cl pre rest :
  length pre <= span cl (pre ++ rest)
  <-> Forall (fun c => cls_match cl c = true) pre.
Proof.
  induction pre as [|c pre IH]; simpl.
  - split; [constructor | lia].
  - destruct (cls_match cl c) eqn:Hc.
    + rewrite Forall_cons. rewrite <- IH. split; [intros; split; [exact Hc|lia] | intros []; lia].
    + split; [lia|]. intros [Hc' _]%Forall_cons. congruence.
Qed.

Lemma one_line_span pre rest :
  length pre <= span CDot (pre ++ rest) <-> one_line pre.
Proof.
  rewrite span_prefix. unfold one_line. apply Forall_iff. intros c. simpl.
  now destruct (line_terminator c).
Qed.

(** [delim_len] finds the delimiters, and only them. *)
Lemma delim_len_Some s n :
  delim_len s = Some n
  <-> exists d rest, s = d ++ rest /\ delimiter d /\ length d = n.
Proof.
  split.
  - unfold delim_len.
    destruct (starts_with (str "youtu") s) eqn:H1; cbn [andb].
    { destruct (drop 5 s) as [|c s'] eqn:Hd.
      2: destruct (cls_match CDot c) eqn:Hc; cbn [andb].
      2: destruct (starts_with (str "be/") s') eqn:H2.
      2: { intros [= <-]. apply starts_with_app in H1, H2.
           change (length (str "youtu")) with 5 in H1. rewrite Hd in H1.
           exists (str "youtu" ++ c :: str "be/"), (drop (length (str "be/")) s').
           split; [|split; [|reflexivity]].
           - rewrite H1 at 1. rewrite H2 at 1. now rewrite <- !app_assoc.
           - constructor. simpl in Hc. now destruct (line_terminator c). }
      all: apply starts_with_app in H1; rewrite H1; simpl; discriminate. }
    destruct (starts_with (str "v/") s) eqn:H2.
    { intros [= <-]. apply starts_with_app in H2.
      eexists _, _. split; [exact H2|]. split; [constructor|reflexivity]. }
    destruct (starts_with (str "u/") s) eqn:H3; cbn [andb].
    { destruct (drop 2 s) as [|c s'] eqn:Hd.
      2: destruct (cls_match CWord c) eqn:Hc; cbn [andb].
      2: destruct (starts_with (str "/") s') eqn:H4.
      2: { intros [= <-]. apply starts_with_app in H3, H4.
           change (length (str "u/")) with 2 in H3. rewrite Hd in H3.
           exists (str "u/" ++ c :: str "/"), (drop (length (str "/")) s').
           split; [|split; [|reflexivity]].
           - rewrite H3 at 1. rewrite H4 at 1. now rewrite <- !app_assoc.
           - constructor. exact Hc. }
      all: apply starts_with_app in H3; rewrite H3; simpl; discriminate. }
    destruct (starts_with (str "embed/") s) eqn:H4.
    { intros [= <-]. apply starts_with_app in H4.
      eexists _, _. split; [exact H4|]. split; [constructor|reflexivity]. }
    destruct (starts_with (str "watch?v=") s) eqn:H5.
    { intros [= <-]. apply starts_with_app in H5.
      eexists _, _. split; [exact H5|]. split; [constructor|reflexivity]. }
    destruct (starts_with (str "&v=") s) eqn:H6; [|discriminate].
    intros [= <-]. apply starts_with_app in H6.
    eexists _, _. split; [exact H6|]. split; [constructor|reflexivity].
  - intros (d & rest & -> & Hd & <-).
    destruct Hd as [c Hc| |c Hc| | |]; unfold delim_len; simpl.
    + now rewrite Hc.
    + reflexivity.
    + now rewrite Hc.
    + reflexivity.
    + reflexivity.
    + reflexivity.
Qed.

Lemma token_class_separator c :
  cls_match token_class c = negb (Spec.separator c).
Proof. reflexivity. Qed.

Lemma span_cons cl c s :
  span cl (c :: s) = if cls_match cl c then S (span cl s) else 0.
Proof. reflexivity. Qed.

(** Group 2 captures the token. *)
Lemma token_of_span s tok :
  token_of s tok <-> tok = take (span token_class s) s.
Proof.
  split.
  - intros (rest & -> & Htok & Hrest).
    induction tok as [|c tok IH].
    + destruct Hrest as [->|(c & rest' & -> & Hc)]; [reflexivity|].
      cbn [app]. now rewrite span_cons, token_class_separator, Hc.
    + apply Forall_cons in Htok as [Hc Htok].
      cbn [app]. rewrite span_cons, token_class_separator, Hc.
      cbn [negb take]. f_equal. apply IH, Htok.
  - intros ->. exists (drop (span token_class s) s).
    split; [now rewrite take_drop|].
    induction s as [|c s [IH1 IH2]].
    + split; [constructor | now left].
    + rewrite span_cons, token_class_separator.
      destruct (Spec.separator c) eqn:Hc; cbn [negb take drop].
      * split; [constructor|]. right. now exists c, s.
      * split; [|exact IH2]. constructor; [exact Hc | exact IH1].
Qed.

Lemma captures_at_Some s cs :
  captures_at s = Some cs
  <-> exists n, delim_len s = Some n
                /\ cs = [(2, take (span token_class (drop n s)) (drop n s));
                         (1, take n s)].
Proof.
  unfold captures_at. destruct (delim_len s) as [n|].
  - split.
    + intros [= <-]. now exists n.
    + now intros (n' & [= <-] & ->).
  - split; [discriminate | now intros (n' & [=] & _)].
Qed.

Lemma getYouTubeID_star url tok :
  getYouTubeID url = Some tok
  <-> exists n dn,
        n <= span CDot url
        /\ delim_len (drop n url) = Some dn
        /\ tok = take (span token_class (drop dn (drop n url)))
                   (drop dn (drop n url))
        /\ length tok = 11
        /\ forall n', n < n' <= span CDot url -> delim_len (drop n' url) = None.
Proof.
  unfold getYouTubeID. rewrite String_match_regExp.
  split.
  - destruct (star_m CDot 0 url _) as [cs|] eqn:Hs; [|discriminate].
    apply star_m_Some in Hs as (n & Hn & Hcs & Hlater).
    apply captures_at_Some in Hcs as (dn & Hdn & ->). simpl.
    destruct (Nat.eqb _ 11) eqn:Hlen; [|discriminate].
    intros [= <-]. exists n, dn. apply Nat.eqb_eq in Hlen.
    repeat split; try assumption.
    intros n' Hn'. specialize (Hlater n' Hn'). unfold captures_at in Hlater.
    now destruct (delim_len (drop n' url)).
  - intros (n & dn & Hn & Hdn & -> & Hlen & Hlater).
    assert (Hs : star_m CDot 0 url (fun _ s => captures_at s)
                 = Some [(2, take (span token_class (drop dn (drop n url)))
                               (drop dn (drop n url)));
                         (1, take dn (drop n url))]).
    { apply star_m_Some. exists n. split; [exact Hn|]. split.
      - unfold captures_at. now rewrite Hdn.
      - intros n' Hn'. unfold captures_at. now rewrite Hlater. }
    rewrite Hs. simpl. apply Nat.eqb_eq in Hlen. now rewrite Hlen.
Qed.

Lemma getYouTubeID_extracts url tok :
  getYouTubeID url = Some tok <-> extracts url tok.
Proof.
  unfold extracts. rewrite getYouTubeID_star. split.
  - intros (n & dn & Hn & Hdn & Htok & Hlen & Hlater).
    apply delim_len_Some in Hdn as (d & rest & Hdrop & Hd & <-).
    assert (Hurl : url = take n url ++ d ++ rest).
    { now rewrite <- Hdrop, take_drop. }
    assert (Hlenpre : length (take n url) = n).
    { rewrite length_take. pose proof (span_le_length CDot url). lia. }
    exists (take n url), d, rest. split; [exact Hurl|].
    rewrite Hdrop, drop_app_length in Htok.
    split; [|split; [now apply token_of_span | exact Hlen]].
    split; [|split; [exact Hd|]].
    + apply (one_line_span _ (d ++ rest)). rewrite <- Hurl. lia.
    + intros pre' d' rest' Hurl' Hpre' Hd'.
      destruct (decide (length pre' <= length (take n url))) as [|Hgt];
        [assumption|exfalso].
      assert (Hnone : delim_len (drop (length pre') url) = None).
      { apply Hlater. split; [lia|].
        rewrite Hurl'. now apply one_line_span. }
      rewrite Hurl', drop_app_length in Hnone.
      assert (Hsome : delim_len (d' ++ rest') = Some (length d')).
      { apply delim_len_Some. now exists d', rest'. }
      congruence.
  - intros (pre & d & s & Hurl & (Hpre & Hd & Hlast) & Htok & Hlen).
    exists (length pre), (length d).
    assert (Hn : length pre <= span CDot url).
    { rewrite Hurl. now apply one_line_span. }
    split; [exact Hn|].
    rewrite Hurl at 1 2 3. rewrite !drop_app_length.
    split; [apply delim_len_Some; now exists d, s|].
    split; [now apply token_of_span|]. split; [exact Hlen|].
    intros n' Hn'.
    destruct (delim_len (drop n' url)) as [dn'|] eqn:Hdn'; [exfalso|reflexivity].
    apply delim_len_Some in Hdn' as (d' & rest' & Hdrop & Hd' & _).
    assert (Hlen' : length (take n' url) = n').
    { rewrite length_take. pose proof (span_le_length CDot url). lia. }
    assert (Hurl' : url = take n' url ++ d' ++ rest').
    { now rewrite <- Hdrop, take_drop. }
    assert (length (take n' url) <= length pre); [|lia].
    apply (Hlast _ d' rest' Hurl'); [|exact Hd'].
    apply (one_line_span _ (d' ++ rest')). rewrite <- Hurl'. lia.
Qed.

(** C2. [getYouTubeID] returns [tok] exactly when [tok] has 11 code units
    and is the token (the characters up to the end of the string or the
    first of #, & and ?) that follows the rightmost delimiter starting on
    the first line of the input, the delimiters being youtu<c>be/ for any
    character c but a line terminator, v/, u/<w>/ for a word character w,
    embed/, watch?v= and &v=; for every other string it returns null. *)
Theorem getYouTubeID_rightmost_delimiter url :
  (forall tok, getYouTubeID url = Some tok <-> extracts url tok)
  /\ (getYouTubeID url = None <-> forall tok, ~ extracts url tok).
Proof.
  split; [intros tok; apply getYouTubeID_extracts|].
  split.
  - intros Hnone tok Htok%getYouTubeID_extracts. congruence.
  - intros Hno. destruct (getYouTubeID url) as [tok|] eqn:Hid; [|reflexivity].
    exfalso. apply (Hno tok). now apply getYouTubeID_extracts.
Qed.

Lemma any_suffix_false f pre s :
  any_suffix f (pre ++ s) = false -> f s = false.
Proof.
  induction pre as [|c pre IH]; simpl.
  - destruct s; intros H%orb_false_elim; apply H.
  - intros [_ H]%orb_false_elim. now apply IH.
Qed.

Lemma url_form_at_prefix d rest :
  Spec.url_form d -> url_form_at (d ++ rest) = true.
Proof.
  intros [ | |c Hc| | | ]; unfold url_form_at; simpl; try reflexivity.
  now rewrite Hc.
Qed.

Lemma not_recognized url :
  any_suffix url_form_at url = false -> forall tok, ~ Spec.recognized url tok.
Proof.
  intros Hno tok (pre & d & rest & -> & Hd & _).
  apply any_suffix_false in Hno.
  now rewrite url_form_at_prefix in Hno.
Qed.

(** Counterexample to C2 as stated: a string of the form youtu.be/<id>
    with an 11-character token, followed by a query that holds [&v=], gives
    null. *)
Lemma extraction_claim_fails :
  ~ Spec.extraction_claim (str "https://youtu.be/dQw4w9WgXcQ?t=1&v=x").
Proof.
  intros [Hyes _].
  specialize (Hyes (str "dQw4w9WgXcQ")).
  assert (getYouTubeID (str "https://youtu.be/dQw4w9WgXcQ?t=1&v=x") = None)
    as Hnone by (vm_compute; reflexivity).
  rewrite Hnone in Hyes. discriminate Hyes.
  exists (str "https://"), (str "youtu.be/"), (str "?t=1&v=x").
  split; [reflexivity|]. split; [constructor|]. split; [reflexivity|].
  split.
  - apply Forall_forall. intros c Hc%list_elem_of_In.
    vm_compute in Hc. repeat (destruct Hc as [<-|Hc]; [reflexivity|]).
    destruct Hc.
  - right. eexists _, _. split; reflexivity.
Qed.

(** Strings of none of the listed forms from which an identifier is
    extracted all the same: [.] of the pattern is any character, [v/] needs
    no slash before it, [\w] is any word character. *)
Lemma extraction_of_unlisted_forms :
  Forall (fun url => (forall tok, ~ Spec.recognized url tok)
                     /\ getYouTubeID url = Some (str "dQw4w9WgXcQ"))
    [str "https://youtuXbe/dQw4w9WgXcQ";
     str "https://example.com/tv/dQw4w9WgXcQ";
     str "https://www.youtube.com/u/a/dQw4w9WgXcQ"].
Proof.
  repeat constructor; try (apply not_recognized; vm_compute; reflexivity);
    vm_compute; reflexivity.
Qed.

(** A line terminator before the delimiter hides it. *)
Lemma extraction_after_line_break :
  Spec.recognized (10%N :: str "https://youtu.be/dQw4w9WgXcQ") (str "dQw4w9WgXcQ")
  /\ getYouTubeID (10%N :: str "https://youtu.be/dQw4w9WgXcQ") = None.
Proof.
  split; [|vm_compute; reflexivity].
  exists (10%N :: str "https://"), (str "youtu.be/"), [].
  split; [reflexivity|]. split; [constructor|]. split; [reflexivity|].
  split; [|now left].
  apply Forall_forall. intros c Hc%list_elem_of_In.
  vm_compute in Hc. repeat (destruct Hc as [<-|Hc]; [reflexivity|]).
  destruct Hc.
Qed.

End ExtractionMatch.

(** ** Generation: submit and retake *)

Section Generation.

Implicit Types (st : State) (r : Request) (o : Outcome).

Lemma join_occurs sep (l : list jsstring) x :
  x ∈ l -> occurs_in x (join sep l).
Proof.
  induction l as [|y l IH]; [intros H; inversion H|].
  intros [->|Hx]%elem_of_cons.
  - destruct l as [|z l].
    + exists [], []. simpl. now rewrite app_nil_r.
    + exists [], (sep ++ join sep (z :: l)). reflexivity.
  - destruct (IH Hx) as (a & b & Hab).
    destruct l as [|z l]; [inversion Hx|].
    exists (y ++ sep ++ a), b.
    change (join sep (y :: z :: l)) with (y ++ sep ++ join sep (z :: l)).
    rewrite Hab. now rewrite <- !app_assoc.
Qed.

(** The text of every question passed as [existingQuestions] is in the
    prompt. *)
Lemma build_prompt_occurs transcript (existing : list QuizQuestion) q :
  q ∈ existing -> occurs_in (question q) (build_prompt transcript existing).
Proof.
  intros Hq. unfold build_prompt.
  destruct existing as [|q0 existing]; [inversion Hq|].
  cbn [length Nat.ltb Nat.leb].
  destruct (join_occurs (nl ++ str " - ") (question <$> q0 :: existing)
              (question q)) as (a & b & Hab).
  { apply list_elem_of_fmap. now exists q. }
  rewrite Hab.
  exists (prompt_base ++ prompt_exclusion ++ a),
         (b ++ prompt_transcript ++ transcript).
  now rewrite <- !app_assoc.
Qed.

Lemma step_settle st k r o :
  pending st !! k = Some r ->
  step st (Settle k o) = Some (settle r o (set_pending (delete k (pending st)) st)).
Proof. intros H. simpl. now rewrite H. Qed.

(** Counterexample to C1 as stated: the first submit of a session, when
    generation fails, leaves [currentTranscript] set although it was null
    at the generator call. *)
Lemma failed_submit_stores_input :
  exists st,
    run init submit_sample = Some st
    /\ ~ Spec.failure_claim st 0 (Some (str "Failed to fetch")).
Proof.
  eexists. split; [vm_compute; reflexivity|].
  intros H. destruct (H _ eq_refl) as [Ht _].
  vm_compute in Ht. discriminate Ht.
Qed.


(** C4. A retake sends a prompt built from the whole history: the text of
    every question of the history occurs in it. It does not touch the video
    container, and neither it nor the arrival of the response changes
    [currentTranscript] or [currentVideoId]; when questions arrive the video
    container is still what it was. *)
Theorem retake_excludes_history st transcript videoId :
  currentTranscript st = Some transcript ->
  currentVideoId st = Some videoId ->
  transcript <> [] -> videoId <> [] ->
  retakeBtn_disabled st = false ->
  exists st1,
    step st ClickRetake = Some st1
    /\ pending st1
       = pending st
           ++ [mkRequest ByRetake (build_prompt transcript (previousQuestions st))]
    /\ (forall q, q ∈ previousQuestions st ->
          occurs_in (question q)
            (build_prompt transcript (previousQuestions st)))
    /\ videoContainer st1 = videoContainer st
    /\ currentTranscript st1 = Some transcript
    /\ currentVideoId st1 = Some videoId
    /\ previousQuestions st1 = previousQuestions st
    /\ forall o, exists st2,
         step st1 (Settle (length (pending st)) o) = Some st2
         /\ currentTranscript st2 = Some transcript
         /\ currentVideoId st2 = Some videoId
         /\ (forall q qs, o = Resolved (q :: qs) ->
               videoContainer st2 = videoContainer st
               /\ questionsList st2 = imap render_question (q :: qs)).
Proof.
  intros Ht Hv Htne Hvne Hbtn.
  assert (Hst1 : retake_begin st =
    (set_retakeBtn_disabled true
     >> set_restartBtn_disabled true
     >> set_retakeBtn_textContent (str "Generating...")
     >> set_loader_display display_block
     >> (fun st => generateQuiz_call ByRetake transcript None
                     (previousQuestions st) st)) st).
  { unfold retake_begin. rewrite Ht, Hv.
    destruct transcript; [congruence|]. destruct videoId; [congruence|].
    reflexivity. }
  eexists. split; [simpl; rewrite Hbtn, Hst1; reflexivity|].
  split; [reflexivity|].
  split; [intros q Hq; now apply build_prompt_occurs|].
  split; [reflexivity|]. split; [exact Ht|]. split; [exact Hv|].
  split; [reflexivity|].
  intros o. eexists. split.
  - apply step_settle. simpl. apply list_lookup_middle. reflexivity.
  - destruct o as [message|[|q' qs']|written rendered count message];
      (split; [exact Ht|]); (split; [exact Hv|]);
      intros q qs [=]; subst.
    split; reflexivity.
Qed.

End Generation.

(** ** The event loop *)

Section EventLoop.

Implicit Types (st : State) (e : Event).

Lemma run_reachable st es st' :
  reachable st -> run st es = Some st' -> reachable st'.
Proof.
  revert st. induction es as [|e es IH]; intros st Hst; simpl.
  - now intros [= <-].
  - destruct (step st e) as [st1|] eqn:He; [|discriminate].
    apply IH. now apply (reachable_step st e).
Qed.

(** C3, on its failing input. After a first quiz, a click on the retake
    button leaves its request outstanding with the generate button enabled,
    and submitting the form then starts a second request: two generation
    requests are outstanding at once, in a reachable state. *)
Theorem retake_leaves_generate_enabled :
  exists st1 st2,
    run init (first_quiz ++ [ClickRetake]) = Some st1
    /\ caller <$> pending st1 = [ByRetake]
    /\ generateBtn_disabled st1 = false
    /\ step st1 Submit = Some st2
    /\ reachable st2
    /\ caller <$> pending st2
       = [ByRetake; BySubmit sample_transcript (str "dQw4w9WgXcQ")].
Proof.
  eexists _, _. split; [vm_compute; reflexivity|].
  split; [vm_compute; reflexivity|]. split; [vm_compute; reflexivity|].
  split; [vm_compute; reflexivity|]. split; [|vm_compute; reflexivity].
  apply (run_reachable init retake_then_submit); [constructor|].
  vm_compute. reflexivity.
Qed.

(** C8, on its failing input. When the two overlapping requests of
    [retake_then_submit] both bring five questions, ten questions are shown
    with [totalQuestions] at 5, and answering six of them takes
    [answeredQuestions] to 6, in a reachable state. *)
Theorem overlapping_renders_overrun_total :
  exists st,
    run init both_arrive_six_answered = Some st
    /\ reachable st
    /\ length (questionsList st) = 10
    /\ totalQuestions st = 5
    /\ answeredQuestions st = 6.
Proof.
  eexists. split; [vm_compute; reflexivity|].
  split; [|repeat split; vm_compute; reflexivity].
  apply (run_reachable init both_arrive_six_answered); [constructor|].
  vm_compute. reflexivity.
Qed.

Lemma unanswered_alter (f : QuestionItem -> QuestionItem) j l it :
  l !! j = Some it -> answered it = false -> answered (f it) = true ->
  S (unanswered (alter f j l)) = unanswered l.
Proof.
  unfold unanswered. revert j. induction l as [|x l IH]; intros [|j] Hj Ha Hf;
    try discriminate; simpl in Hj.
  - injection Hj as ->. cbn [alter list_alter].
    rewrite !filter_cons. rewrite (decide_True _ _ Ha).
    rewrite decide_False by congruence. reflexivity.
  - cbn [alter list_alter]. rewrite !filter_cons.
    specialize (IH j Hj Ha Hf). cbn [alter] in IH.
    destruct (decide (answered x = false)); simpl; lia.
Qed.

Lemma unanswered_imap (f : nat -> QuizQuestion -> QuestionItem) qs :
  (forall i q, answered (f i q) = false) ->
  unanswered (imap f qs) = length qs.
Proof.
  unfold unanswered. revert f. induction qs as [|q qs IH]; intros f Hf;
    [reflexivity|].
  cbn [imap]. rewrite filter_cons, decide_True by apply Hf.
  simpl. f_equal. apply IH. intros i q'. apply Hf.
Qed.

(** The state after the first click on an option of an unanswered
    question, as far as the counters and the list go. *)
Lemma option_click_state st j i it txt ans :
  questionsList st !! j = Some it ->
  answered it = false ->
  let st' := option_click j i txt ans st in
  questionsList st' =
    alter (set_answered true) j
      (alter (fun it => set_optionElements
                (checkAnswer_options (optionElements it) i txt ans) it)
         j (questionsList st))
  /\ pending st' = pending st
  /\ answeredQuestions st' = S (answeredQuestions st)
  /\ totalQuestions st' = totalQuestions st.
Proof.
  intros Hj Hans. unfold option_click. rewrite Hj, Hans.
  unfold andThen, checkAnswer.
  destruct (bool_decide (txt = ans));
    match goal with
    | |- context [if ?c then displayResults _ else _] => destruct c
    end; repeat split.
Qed.

Lemma generateQuiz_call_frame who t v ex st :
  let st' := generateQuiz_call who t v ex st in
  pending st' = pending st ++ [mkRequest who (build_prompt t ex)]
  /\ questionsList st' = []
  /\ answeredQuestions st' = answeredQuestions st
  /\ totalQuestions st' = totalQuestions st.
Proof.
  unfold generateQuiz_call, andThen. destruct (truthy v); repeat split.
Qed.

Lemma exclusive_inv_step st e st' :
  exclusive_inv st -> step_exclusive st e = Some st' -> exclusive_inv st'.
Proof.
  intros (Hlen & Hshown & Hcount).
  destruct e as [s|s| | | |j i|k o]; simpl.
  - intros [= <-]. repeat split; assumption.
  - intros [= <-]. repeat split; assumption.
  - destruct (pending st) as [|r rs] eqn:Hp; [|discriminate].
    destruct (generateBtn_disabled st); [discriminate|]. intros [= <-].
    unfold submit_begin. cbv zeta.
    destruct (negb (truthy _)); [|destruct (_ || _)].
    1, 2: unfold exclusive_inv; simpl; rewrite ?Hp; simpl;
      repeat split; try assumption; try lia.
    unfold andThen.
    match goal with
    | |- exclusive_inv (generateQuiz_call ?w ?t ?v ?ex ?s) =>
        destruct (generateQuiz_call_frame w t v ex s) as (Hp' & Hq' & Ha' & Ht')
    end.
    unfold exclusive_inv. rewrite Hp', Hq', Ha', Ht'. simpl. rewrite Hp.
    simpl. change (unanswered []) with 0. repeat split; lia.
  - destruct (restartBtn_disabled st); [discriminate|]. intros [= <-].
    unfold exclusive_inv; simpl. change (unanswered []) with 0.
    repeat split; try assumption; lia.
  - destruct (pending st) as [|r rs] eqn:Hp; [|discriminate].
    destruct (retakeBtn_disabled st); [discriminate|]. intros [= <-].
    unfold retake_begin.
    destruct (currentTranscript st) as [t|];
      [destruct (truthy (Some t) && truthy (currentVideoId st))|].
    2, 3: unfold exclusive_inv; rewrite ?Hp; repeat split; assumption.
    unfold andThen.
    match goal with
    | |- exclusive_inv (generateQuiz_call ?w ?t ?v ?ex ?s) =>
        destruct (generateQuiz_call_frame w t v ex s) as (Hp' & Hq' & Ha' & Ht')
    end.
    unfold exclusive_inv. rewrite Hp', Hq', Ha', Ht'. simpl. rewrite Hp.
    simpl. change (unanswered []) with 0. repeat split; lia.
  - destruct (questionsList st !! j) as [it|] eqn:Hj; [|discriminate].
    destruct (optionElements it !! i) as [opt|]; [|discriminate].
    intros [= <-].
    destruct (answered it) eqn:Hans.
    + unfold option_click. rewrite Hj, Hans. repeat split; assumption.
    + destruct (option_click_state st j i it (value opt) (q_answer it) Hj Hans)
        as (Hq & Hp & Ha & Ht).
      unfold exclusive_inv. rewrite Hq, Hp, Ha, Ht.
      split; [exact Hlen|]. split.
      * intros Hne. rewrite (Hshown Hne) in Hj. discriminate.
      * rewrite list_alter_alter_eq.
        match goal with
        | |- context [unanswered (alter ?f j ?l)] =>
            pose proof (unanswered_alter f j l it Hj Hans eq_refl)
        end.
        lia.
  - destruct (pending st) as [|r [|r' rs]] eqn:Hp; simpl in Hlen; try lia.
    + destruct k; discriminate.
    + destruct k as [|k]; [|destruct k; discriminate]. simpl.
      intros [= <-].
      assert (Hnil : questionsList st = []) by (apply Hshown; discriminate).
      unfold settle, exclusive_inv.
      destruct o as [message|[|q qs]|written rendered count message];
        destruct (caller r); simpl;
        rewrite ?Hnil; simpl;
        rewrite ?(unanswered_imap _ _ (fun _ _ => eq_refl));
        change (unanswered []) with 0;
        repeat split; try congruence; try lia.
      all: change (render_question 0 q :: imap (render_question ∘ S) qs)
             with (imap render_question (q :: qs));
           rewrite unanswered_imap by reflexivity; simpl; lia.
Qed.

(** X19. Without overlapping requests [answeredQuestions] never exceeds
    [totalQuestions]. *)
Theorem exclusive_answered_le_total st :
  reachable_exclusive st -> answeredQuestions st <= totalQuestions st.
Proof.
  intros Hst. assert (exclusive_inv st) as (_ & _ & H); [|lia].
  induction Hst as [|st e st' _ IH He].
  - unfold exclusive_inv. simpl. change (unanswered []) with 0.
    split; [lia|]. split; [reflexivity|lia].
  - exact (exclusive_inv_step st e st' IH He).
Qed.

Lemma outstanding_app p l1 l2 :
  outstanding p (l1 ++ l2) = outstanding p l1 + outstanding p l2.
Proof. induction l1 as [|r l1 IH]; simpl; [reflexivity|]. rewrite IH. lia. Qed.

Lemma outstanding_delete p l k r :
  l !! k = Some r ->
  outstanding p (delete k l) + (if p r then 1 else 0) = outstanding p l.
Proof.
  revert k. induction l as [|x l IH]; intros [|k] Hk; try discriminate;
    simpl in Hk.
  - injection Hk as ->. simpl. lia.
  - specialize (IH k Hk).
    change (delete (S k) (x :: l)) with (x :: delete k l).
    simpl. lia.
Qed.

Lemma outstanding_total l :
  length l = outstanding by_submit l + outstanding by_retake l.
Proof.
  induction l as [|r l IH]; simpl; [reflexivity|].
  replace (by_submit r) with (negb (by_retake r)) by reflexivity.
  destruct (by_retake r); simpl; lia.
Qed.

Lemma flow_inv_step st e st' :
  flow_inv st -> step st e = Some st' -> flow_inv st'.
Proof.
  intros (Hs & Hr & Hb).
  destruct e as [s|s| | | |j i|k o]; simpl.
  - intros [= <-]. repeat split; assumption.
  - intros [= <-]. repeat split; assumption.
  - destruct (generateBtn_disabled st) eqn:Hg; [discriminate|]. intros [= <-].
    unfold submit_begin. cbv zeta.
    destruct (negb (truthy _)); [|destruct (_ || _)].
    1, 2: unfold flow_inv; simpl; rewrite Hg; repeat split; assumption.
    unfold andThen, generateQuiz_call, andThen. unfold flow_inv.
    destruct (truthy (getYouTubeID _)); simpl;
      rewrite !outstanding_app; simpl; repeat split; try assumption; lia.
  - destruct (restartBtn_disabled st) eqn:Hd; [discriminate|]. intros [= <-].
    unfold flow_inv; simpl; rewrite ?Hd; repeat split; assumption.
  - destruct (retakeBtn_disabled st) eqn:Hd; [discriminate|]. intros [= <-].
    unfold retake_begin.
    destruct (currentTranscript st) as [t|];
      [destruct (truthy (Some t) && truthy (currentVideoId st))|].
    2, 3: unfold flow_inv; rewrite Hd; repeat split; assumption.
    unfold flow_inv. simpl. rewrite !outstanding_app. simpl.
    repeat split; lia.
  - destruct (questionsList st !! j) as [it|] eqn:Hj; [|discriminate].
    destruct (optionElements it !! i) as [opt|]; [|discriminate].
    intros [= <-]. unfold option_click. rewrite Hj.
    destruct (answered it); [repeat split; assumption|].
    unfold andThen, checkAnswer.
    destruct (bool_decide (value opt = q_answer it));
      match goal with
      | |- context [if ?c then displayResults _ else _] => destruct c
      end; repeat split; assumption.
  - destruct (pending st !! k) as [r|] eqn:Hk; [|discriminate].
    intros [= <-].
    pose proof (outstanding_delete by_submit _ _ _ Hk) as Hds.
    pose proof (outstanding_delete by_retake _ _ _ Hk) as Hdr.
    replace (by_submit r) with (negb (by_retake r)) in Hds by reflexivity.
    unfold by_retake in Hds, Hdr at 2.
    unfold settle, flow_inv.
    destruct (caller r); destruct o as [message|[|q qs]|written rendered count message]; simpl in *;
      repeat split; try assumption;
      destruct (generateBtn_disabled st), (retakeBtn_disabled st); lia.
Qed.

(** X18. Each flow excludes itself: in every reachable state a submit-triggered
    request is outstanding exactly when the generate button is disabled,
    a retake-triggered one exactly when the retake and restart buttons
    are, and there is at most one of each. *)
Theorem one_request_per_flow st :
  reachable st ->
  flow_inv st
  /\ outstanding by_submit (pending st) <= 1
  /\ outstanding by_retake (pending st) <= 1
  /\ length (pending st) <= 2.
Proof.
  intros Hst. assert (Hinv : flow_inv st).
  { induction Hst as [|st e st' _ IH He].
    - repeat split.
    - exact (flow_inv_step st e st' IH He). }
  split; [exact Hinv|]. destruct Hinv as (Hs & Hr & _).
  rewrite outstanding_total, Hs, Hr.
  destruct (generateBtn_disabled st), (retakeBtn_disabled st); lia.
Qed.

End EventLoop.

(** ** Worked cases *)

Section WorkedCases.

(** A watch URL, and a short URL whose query holds a later delimiter. *)
Lemma getYouTubeID_rightmost_delimiter_witness :
  extracts sample_url (str "dQw4w9WgXcQ")
  /\ forall tok, ~ extracts (str "https://youtu.be/dQw4w9WgXcQ?t=1&v=x") tok.
Proof.
  split.
  - apply (proj1 (getYouTubeID_rightmost_delimiter sample_url)).
    vm_compute. reflexivity.
  - apply (proj2 (getYouTubeID_rightmost_delimiter
                    (str "https://youtu.be/dQw4w9WgXcQ?t=1&v=x"))).
    vm_compute. reflexivity.
Defined.

(** A retake after a first quiz of five questions. *)
Lemma retake_excludes_history_witness :
  exists st1,
    step quiz_done ClickRetake = Some st1
    /\ contents <$> pending st1
       = [build_prompt sample_transcript (sample_quiz 1)]
    /\ occurs_in (question (sample_question 3))
         (build_prompt sample_transcript (sample_quiz 1))
    /\ videoContainer st1 = videoContainer quiz_done
    /\ currentTranscript st1 = Some sample_transcript
    /\ currentVideoId st1 = Some (str "dQw4w9WgXcQ").
Proof.
  destruct (retake_excludes_history quiz_done sample_transcript
              (str "dQw4w9WgXcQ"))
    as (st1 & Hstep & Hreq & Hocc & Hvid & Ht & Hv & _).
  - vm_compute. reflexivity.
  - vm_compute. reflexivity.
  - vm_compute. discriminate.
  - vm_compute. discriminate.
  - vm_compute. reflexivity.
  - exists st1. split; [exact Hstep|].
    split; [rewrite Hreq; vm_compute; reflexivity|].
    split; [|now repeat split].
    apply (Hocc (sample_question 3)).
    apply (list_elem_of_lookup_2 _ 2). vm_compute. reflexivity.
Defined.

(** Four right answers out of five. *)
Lemma scoring_below_40_witness :
  0 < totalQuestions four_of_five < 40
  /\ correctAnswers four_of_five <= totalQuestions four_of_five
  /\ to_Z (percentage_of 4 5) = Some 80%Z
  /\ str "Great Job!" `prefix_of`
       resultsTitle_textContent (displayResults four_of_five).
Proof.
  assert (Ht : 0 < totalQuestions four_of_five < 40) by (vm_compute; lia).
  assert (Hc : correctAnswers four_of_five <= totalQuestions four_of_five)
    by (vm_compute; lia).
  split; [exact Ht|]. split; [exact Hc|].
  destruct (scoring_below_40 four_of_five Ht Hc) as (Hp & Htitle & _).
  split; [exact Hp | exact Htitle].
Defined.

(** A wrong option of a well-formed question is clicked. *)
Lemma one_option_marked_correct_witness :
  exists st' it' k o,
    step quiz_shown (ClickOption 0 0) = Some st'
    /\ questionsList st' !! 0 = Some it'
    /\ answered it' = true
    /\ optionElements it' !! k = Some o
    /\ value o = str "B"
    /\ correct o = true
    /\ (forall k', marked_correct it' k' -> k' = k)
    /\ (forall k1 k2,
          marked_selected_incorrect it' k1 ->
          marked_selected_incorrect it' k2 -> k1 = k2).
Proof.
  apply (one_option_marked_correct quiz_shown 0 0 0 (sample_question 1)
           (str "A")).
  - vm_compute. reflexivity.
  - vm_compute. reflexivity.
  - vm_compute. reflexivity.
Defined.

(** A second click on a question that is locked. *)
Lemma locking_idempotent_witness :
  step quiz_one_answered (ClickOption 0 2) = Some quiz_one_answered.
Proof.
  refine (proj1 (locking_idempotent quiz_one_answered 0 2 _ _ _ _) _);
    reflexivity.
Defined.


(** An option of the question with the stray answer is clicked. *)
Lemma answer_outside_options_witness :
  exists st' it',
    step quiz_shown (ClickOption 1 0) = Some st'
    /\ questionsList st' !! 1 = Some it'
    /\ answered it' = true
    /\ marked_selected_incorrect it' 0
    /\ (forall k, ~ marked_correct it' k)
    /\ correctAnswers st' = correctAnswers quiz_shown
    /\ answeredQuestions st' = S (answeredQuestions quiz_shown)
    /\ errorMessage_hidden st' = errorMessage_hidden quiz_shown
    /\ errorMessage_textContent st' = errorMessage_textContent quiz_shown
    /\ length (optionElements it') = length (options stray_question)
    /\ (forall k o,
          optionElements it' !! k = Some o ->
          input_disabled o = true /\ cursor_default o = true)
    /\ (forall k o,
          optionElements it' !! k = Some o ->
          step st' (ClickOption 1 k) = Some st').
Proof.
  apply (answer_outside_options quiz_shown 1 0 1 stray_question (str "A")).
  - vm_compute. reflexivity.
  - vm_compute. reflexivity.
  - apply (bool_decide_eq_false_1 _). vm_compute. reflexivity.
Defined.

End WorkedCases.

(** ** Further properties of the handlers *)

Section Session.

Implicit Types (st : State) (e : Event).

Lemma getYouTubeID_length url id :
  getYouTubeID url = Some id -> length id = 11.
Proof.
  unfold getYouTubeID. destruct (String_match url regExp) as [cs|]; [|discriminate].
  destruct (capture 2 cs) as [g|]; [|discriminate].
  destruct (Nat.eqb (length g) 11) eqn:Hlen; [|discriminate].
  intros [= <-]. now apply Nat.eqb_eq.
Qed.

(** The branches of the submit handler. *)
Lemma submit_begin_cases st :
  let url := trim (urlInput_value st) in
  let t := trim (transcriptInput_value st) in
  (getYouTubeID url = None
   /\ submit_begin st
      = set_formError_hidden false
          (set_formError_textContent msg_invalid_url
             (set_formError_hidden true st)))
  \/ (exists id, getYouTubeID url = Some id /\ length t < 100
      /\ submit_begin st
         = set_formError_hidden false
             (set_formError_textContent msg_short_transcript
                (set_formError_hidden true st)))
  \/ (exists id, getYouTubeID url = Some id /\ 100 <= length t
      /\ submit_begin st
         = generateQuiz_call (BySubmit t id) t (Some id) []
             (set_previousQuestions []
                (set_videoContainer []
                   (clearOutput (setLoading true (set_formError_hidden true st)))))).
Proof.
  cbv zeta. unfold submit_begin. cbv zeta.
  change (urlInput_value (set_formError_hidden true st)) with (urlInput_value st).
  change (transcriptInput_value (set_formError_hidden true st))
    with (transcriptInput_value st).
  destruct (getYouTubeID (trim (urlInput_value st))) as [id|] eqn:Hid.
  - pose proof (getYouTubeID_length _ _ Hid) as Hlen.
    destruct id as [|c id]; [discriminate|]. cbn [truthy negb].
    destruct (Nat.ltb (length (trim (transcriptInput_value st))) 100) eqn:Hlt.
    + right. left. exists (c :: id). apply Nat.ltb_lt in Hlt.
      split; [reflexivity|]. split; [exact Hlt|].
      rewrite orb_true_r. reflexivity.
    + right. right. exists (c :: id). apply Nat.ltb_ge in Hlt.
      split; [reflexivity|]. split; [exact Hlt|].
      destruct (trim (transcriptInput_value st)) as [|c' t'] eqn:Ht;
        [simpl in Hlt; lia|].
      reflexivity.
  - left. split; reflexivity.
Qed.

(** X1. A submit whose URL yields no identifier, or whose trimmed
    transcript is shorter than 100 code units, sends no request and changes
    nothing but the form error, which it shows: with the URL message when
    no identifier is found, with the transcript message otherwise. *)
Theorem submit_rejects_invalid st :
  generateBtn_disabled st = false ->
  getYouTubeID (trim (urlInput_value st)) = None
  \/ length (trim (transcriptInput_value st)) < 100 ->
  exists st',
    step st Submit = Some st'
    /\ same_but_formError st st'
    /\ pending st' = pending st
    /\ formError_hidden st' = false
    /\ formError_textContent st'
       = match getYouTubeID (trim (urlInput_value st)) with
         | None => msg_invalid_url
         | Some _ => msg_short_transcript
         end.
Proof.
  intros Hbtn Hbad. eexists. split; [simpl; rewrite Hbtn; reflexivity|].
  destruct (submit_begin_cases st)
    as [(Hid & ->)|[(id & Hid & Hlen & ->)|(id & Hid & Hlen & _)]].
  - rewrite Hid. repeat split.
  - rewrite Hid. repeat split.
  - destruct Hbad as [Hnone|Hshort]; [congruence|lia].
Qed.

(** X2. A submit that passes both checks resets the history, embeds the
    player of the identifier found, clears the quiz output, disables the
    generate button and sends one request, whose prompt is the instruction
    followed by the trimmed transcript, with no exclusion list; the session
    variables are not assigned before the response. *)
Theorem valid_submit_starts_generation st id :
  generateBtn_disabled st = false ->
  getYouTubeID (trim (urlInput_value st)) = Some id ->
  100 <= length (trim (transcriptInput_value st)) ->
  exists st',
    step st Submit = Some st'
    /\ pending st'
       = pending st
           ++ [mkRequest (BySubmit (trim (transcriptInput_value st)) id)
                 (prompt_base ++ prompt_transcript
                  ++ trim (transcriptInput_value st))]
    /\ previousQuestions st' = []
    /\ videoContainer st' = [mkIframe (embed_src id)]
    /\ questionsList st' = []
    /\ generateBtn_disabled st' = true
    /\ formError_hidden st' = true
    /\ currentTranscript st' = currentTranscript st
    /\ currentVideoId st' = currentVideoId st.
Proof.
  intros Hbtn Hid Hlen. eexists. split; [simpl; rewrite Hbtn; reflexivity|].
  destruct (submit_begin_cases st)
    as [(Hid' & _)|[(id' & _ & Hlen' & _)|(id' & Hid' & _ & ->)]];
    [congruence|lia|].
  assert (id' = id) as -> by congruence.
  pose proof (getYouTubeID_length _ _ Hid) as Hlen11.
  destruct id as [|c id]; [discriminate|].
  repeat split.
Qed.

Lemma session_inv_step st e st' :
  session_inv st -> step st e = Some st' -> session_inv st'.
Proof.
  intros (Hs & Hp).
  destruct e as [s|s| | | |j i|k o]; simpl.
  - intros [= <-]. split; assumption.
  - intros [= <-]. split; assumption.
  - destruct (generateBtn_disabled st); [discriminate|]. intros [= <-].
    destruct (submit_begin_cases st)
      as [(_ & ->)|[(id & _ & _ & ->)|(id & Hid & Hlen & ->)]];
      [split; assumption..|].
    apply getYouTubeID_length in Hid.
    unfold generateQuiz_call, andThen.
    destruct (truthy (Some id)); (split; [exact Hs|]); simpl;
      (apply Forall_app; split; [exact Hp|]);
      repeat constructor; assumption.
  - destruct (restartBtn_disabled st); [discriminate|]. intros [= <-].
    split; [left; split; reflexivity | exact Hp].
  - destruct (retakeBtn_disabled st); [discriminate|]. intros [= <-].
    assert (Hinv : session_inv st) by (split; assumption).
    unfold retake_begin. clear Hs.
    destruct (currentTranscript st) as [t|];
      [destruct (truthy (Some t) && truthy (currentVideoId st))|];
      [|exact Hinv..].
    split; [exact (proj1 Hinv)|]. simpl.
    apply Forall_app. split; [exact Hp|]. repeat constructor.
  - destruct (questionsList st !! j) as [it|] eqn:Hj; [|discriminate].
    destruct (optionElements it !! i) as [opt|]; [|discriminate].
    intros [= <-]. unfold option_click. rewrite Hj.
    destruct (answered it); [split; assumption|].
    unfold andThen, checkAnswer.
    destruct (bool_decide (value opt = q_answer it));
      match goal with
      | |- context [if ?c then displayResults _ else _] => destruct c
      end; split; assumption.
  - destruct (pending st !! k) as [r|] eqn:Hk; [|discriminate].
    intros [= <-].
    assert (Hr : match caller r with
                 | BySubmit t v => valid_session t v
                 | ByRetake => True
                 end).
    { rewrite Forall_forall in Hp. apply Hp.
      eapply list_elem_of_lookup_2, Hk. }
    assert (Hp' : Forall (fun r => match caller r with
                                   | BySubmit t v => valid_session t v
                                   | ByRetake => True
                                   end) (delete k (pending st))).
    { now apply Forall_delete. }
    unfold settle.
    destruct (caller r) as [t v|]; destruct o as [message|[|q qs]|written rendered count message];
      (split; [|exact Hp']); simpl;
      first [exact Hs | right; exists t, v; repeat split; apply Hr].
Qed.

(** X3. In every reachable state [currentTranscript] and [currentVideoId]
    are both null or both set, and when set the transcript has at least
    100 code units and the identifier exactly 11. *)
Theorem session_both_or_neither st :
  reachable st ->
  (currentTranscript st = None <-> currentVideoId st = None)
  /\ forall t v,
       currentTranscript st = Some t -> currentVideoId st = Some v ->
       valid_session t v.
Proof.
  intros Hst. assert (Hinv : session_inv st).
  { induction Hst as [|st e st' _ IH He].
    - split; [left; split; reflexivity | constructor].
    - exact (session_inv_step st e st' IH He). }
  destruct Hinv as ([(Ht & Hv)|(t & v & Ht & Hv & Hval)] & _).
  - split; [now rewrite Ht, Hv|]. intros t v Ht'. congruence.
  - split; [rewrite Ht, Hv; split; discriminate|].
    intros t' v' Ht' Hv'. congruence.
Qed.

(** X4. In every reachable state a click on the retake button, when the
    button is enabled, does nothing at all if no transcript is stored, and
    otherwise sends one request, built from the stored transcript and the
    whole history. *)
Theorem retake_needs_session st :
  reachable st ->
  retakeBtn_disabled st = false ->
  (currentTranscript st = None -> step st ClickRetake = Some st)
  /\ forall t,
       currentTranscript st = Some t ->
       exists st',
         step st ClickRetake = Some st'
         /\ pending st'
            = pending st
                ++ [mkRequest ByRetake (build_prompt t (previousQuestions st))]
         /\ retakeBtn_disabled st' = true
         /\ restartBtn_disabled st' = true.
Proof.
  intros Hst Hbtn. simpl. rewrite Hbtn. unfold retake_begin. split.
  - now intros ->.
  - intros t Ht.
    assert (Hinv : session_inv st).
    { clear Hbtn Ht. induction Hst as [|st e st' _ IH He].
      - split; [left; split; reflexivity | constructor].
      - exact (session_inv_step st e st' IH He). }
    destruct Hinv as ([(Ht' & _)|(t' & v & Ht' & Hv & Hlen & Hlen')] & _);
      [congruence|].
    assert (t' = t) as -> by congruence.
    rewrite Ht, Hv.
    destruct t as [|c t]; [simpl in Hlen; lia|].
    destruct v as [|c' v]; [discriminate|].
    eexists. split; [reflexivity|]. repeat split.
Qed.

End Session.

Section Failure.

Implicit Types (st : State) (r : Request) (o : Outcome).

(** What [generateQuiz] leaves alone before its [await]. *)
Lemma generateQuiz_call_session who t v ex st :
  let st' := generateQuiz_call who t v ex st in
  previousQuestions st' = previousQuestions st
  /\ currentTranscript st' = currentTranscript st
  /\ currentVideoId st' = currentVideoId st.
Proof.
  unfold generateQuiz_call, andThen. destruct (truthy v); repeat split.
Qed.

(** What each kind of response does to the history: a failure before the
    push leaves it, every other response appends what it pushes, also the
    one on which [renderQuestions] throws afterwards. *)
Lemma response_history st k r o :
  pending st !! k = Some r ->
  exists st',
    step st (Settle k o) = Some st'
    /\ previousQuestions st'
       = match o with
         | Failed _ => previousQuestions st
         | Resolved quizData => previousQuestions st ++ quizData
         | Nonconforming written _ _ _ => previousQuestions st ++ written
         end.
Proof.
  intros Hk. eexists. split; [exact (step_settle _ _ _ _ Hk)|].
  unfold settle.
  destruct o as [message|[|q qs]|written rendered count message];
    destruct (caller r); reflexivity.
Qed.

(** A response that parses and on which [renderQuestions] throws ends in
    the [catch] block like any failure, with the history already written:
    the error is shown, the list of questions and the video container are
    empty, the counters are those [renderQuestions] set before it threw. *)
Lemma nonconforming_response_writes_history st k r written rendered count message :
  pending st !! k = Some r ->
  exists st',
    step st (Settle k (Nonconforming written rendered count message)) = Some st'
    /\ previousQuestions st' = previousQuestions st ++ written
    /\ errorMessage_hidden st' = false
    /\ str "Failed to generate quiz. " `prefix_of` errorMessage_textContent st'
    /\ questionsList st' = []
    /\ videoContainer st' = []
    /\ totalQuestions st' = count
    /\ answeredQuestions st' = 0
    /\ correctAnswers st' = 0.
Proof.
  intros Hk. eexists. split; [exact (step_settle _ _ _ _ Hk)|].
  unfold settle.
  destruct (caller r); (split; [reflexivity|]); (split; [reflexivity|]);
    (split; [eexists; reflexivity|]); repeat split.
Qed.

(** C1. A generation failure that enters the [catch] block before the
    history is written (the request is rejected, the response does not
    parse, or what it parses to cannot be spread) does not modify the
    question history.

    A retake followed by its failing response, with no event in between:
    the history, the transcript and the identifier after the failure are
    those at the generator call, which are those before the click.

    A valid submit followed by its failing response, with no event in
    between: the history is empty at the generator call and after the
    failure; the transcript and the identifier are at the generator call
    what they were before the submit, and after the failure they are the
    submitted ones.

    With other events in between, from any state in which the request is
    outstanding: the failing response leaves the history as it finds it.
    Whatever the response, failing or not, that of a retake leaves the
    transcript and the identifier as it finds them, and that of a submit
    stores the submitted ones. *)
Theorem failure_keeps_history message :
  (forall st transcript videoId,
     currentTranscript st = Some transcript ->
     currentVideoId st = Some videoId ->
     transcript <> [] -> videoId <> [] ->
     retakeBtn_disabled st = false ->
     exists st1 st2,
       step st ClickRetake = Some st1
       /\ step st1 (Settle (length (pending st)) (Failed message)) = Some st2
       /\ previousQuestions st1 = previousQuestions st
       /\ currentTranscript st1 = currentTranscript st
       /\ currentVideoId st1 = currentVideoId st
       /\ previousQuestions st2 = previousQuestions st1
       /\ currentTranscript st2 = currentTranscript st1
       /\ currentVideoId st2 = currentVideoId st1)
  /\ (forall st id,
        generateBtn_disabled st = false ->
        getYouTubeID (trim (urlInput_value st)) = Some id ->
        100 <= length (trim (transcriptInput_value st)) ->
        exists st1 st2,
          step st Submit = Some st1
          /\ step st1 (Settle (length (pending st)) (Failed message)) = Some st2
          /\ previousQuestions st1 = []
          /\ currentTranscript st1 = currentTranscript st
          /\ currentVideoId st1 = currentVideoId st
          /\ previousQuestions st2 = previousQuestions st1
          /\ currentTranscript st2 = Some (trim (transcriptInput_value st))
          /\ currentVideoId st2 = Some id)
  /\ (forall st k r,
        pending st !! k = Some r ->
        exists st',
          step st (Settle k (Failed message)) = Some st'
          /\ previousQuestions st' = previousQuestions st)
  /\ (forall st k r o,
        pending st !! k = Some r ->
        exists st',
          step st (Settle k o) = Some st'
          /\ match caller r with
             | ByRetake =>
                 currentTranscript st' = currentTranscript st
                 /\ currentVideoId st' = currentVideoId st
             | BySubmit transcript videoId =>
                 currentTranscript st' = Some transcript
                 /\ currentVideoId st' = Some videoId
             end).
Proof.
  split; [|split; [|split]].
  - intros st transcript videoId Ht Hv Htne Hvne Hbtn.
    assert (Hst1 : retake_begin st =
      (set_retakeBtn_disabled true
       >> set_restartBtn_disabled true
       >> set_retakeBtn_textContent (str "Generating...")
       >> set_loader_display display_block
       >> (fun st => generateQuiz_call ByRetake transcript None
                       (previousQuestions st) st)) st).
    { unfold retake_begin. rewrite Ht, Hv.
      destruct transcript; [congruence|]. destruct videoId; [congruence|].
      reflexivity. }
    assert (Hp : pending (retake_begin st) !! length (pending st)
                 = Some (mkRequest ByRetake
                           (build_prompt transcript (previousQuestions st)))).
    { rewrite Hst1. apply list_lookup_middle. reflexivity. }
    assert (Hs : previousQuestions (retake_begin st) = previousQuestions st
                 /\ currentTranscript (retake_begin st) = currentTranscript st
                 /\ currentVideoId (retake_begin st) = currentVideoId st).
    { rewrite Hst1. split; [reflexivity|]. split; reflexivity. }
    destruct Hs as (Hh & Ht' & Hv').
    exists (retake_begin st). eexists.
    split; [simpl; now rewrite Hbtn|].
    split; [exact (step_settle _ _ _ _ Hp)|].
    split; [exact Hh|]. split; [exact Ht'|]. split; [exact Hv'|].
    generalize (retake_begin st). intros st1.
    split; [reflexivity|]. split; reflexivity.
  - intros st id Hbtn Hid Hlen.
    destruct (submit_begin_cases st) as [(Hnone & _)|[(id' & _ & Hlt & _)|
      (id' & Hid' & _ & Hst1)]]; [congruence|lia|].
    assert (id' = id) as -> by congruence.
    destruct (generateQuiz_call_frame
                (BySubmit (trim (transcriptInput_value st)) id)
                (trim (transcriptInput_value st)) (Some id) []
                (set_previousQuestions []
                   (set_videoContainer []
                      (clearOutput
                         (setLoading true (set_formError_hidden true st))))))
      as (Hp & _).
    destruct (generateQuiz_call_session
                (BySubmit (trim (transcriptInput_value st)) id)
                (trim (transcriptInput_value st)) (Some id) []
                (set_previousQuestions []
                   (set_videoContainer []
                      (clearOutput
                         (setLoading true (set_formError_hidden true st))))))
      as (Hh & Ht & Hv).
    rewrite <- Hst1 in Hp, Hh, Ht, Hv.
    change (pending (set_previousQuestions [] _)) with (pending st) in Hp.
    change (previousQuestions (set_previousQuestions [] _))
      with (@nil QuizQuestion) in Hh.
    change (currentTranscript (set_previousQuestions [] _))
      with (currentTranscript st) in Ht.
    change (currentVideoId (set_previousQuestions [] _))
      with (currentVideoId st) in Hv.
    assert (Hk : pending (submit_begin st) !! length (pending st)
                 = Some (mkRequest
                           (BySubmit (trim (transcriptInput_value st)) id)
                           (build_prompt (trim (transcriptInput_value st)) []))).
    { rewrite Hp. apply list_lookup_middle. reflexivity. }
    exists (submit_begin st). eexists.
    split; [simpl; now rewrite Hbtn|].
    split; [exact (step_settle _ _ _ _ Hk)|].
    split; [exact Hh|]. split; [exact Ht|]. split; [exact Hv|].
    clear Hst1 Hp Hh Ht Hv Hk.
    generalize (submit_begin st). intros st1.
    split; [reflexivity|]. split; reflexivity.
  - intros st k r Hk. eexists. split; [exact (step_settle _ _ _ _ Hk)|].
    unfold settle. destruct (caller r); reflexivity.
  - intros st k r o Hk. eexists. split; [exact (step_settle _ _ _ _ Hk)|].
    unfold settle.
    destruct o as [message'|[|q qs]|written rendered count message'];
      destruct (caller r); split; reflexivity.
Qed.

(** A retake of a finished quiz whose request fails, and a first submit
    whose request fails. *)
Lemma failure_keeps_history_witness :
  (exists st1 st2,
     step quiz_done ClickRetake = Some st1
     /\ step st1 (Settle 0 (Failed None)) = Some st2
     /\ length (previousQuestions st1) = 5
     /\ previousQuestions st2 = previousQuestions st1
     /\ currentTranscript st2 = Some sample_transcript
     /\ currentVideoId st2 = Some (str "dQw4w9WgXcQ"))
  /\ (exists st1 st2,
        step form_filled Submit = Some st1
        /\ step st1 (Settle 0 (Failed None)) = Some st2
        /\ currentTranscript st1 = None
        /\ previousQuestions st2 = []
        /\ currentTranscript st2 = Some sample_transcript
        /\ currentVideoId st2 = Some (str "dQw4w9WgXcQ")).
Proof.
  destruct (failure_keeps_history None) as (Hretake & Hsubmit & _).
  split.
  - destruct (Hretake quiz_done sample_transcript (str "dQw4w9WgXcQ"))
      as (st1 & st2 & H1 & H2 & Hh1 & Ht1 & Hv1 & Hh2 & Ht2 & Hv2).
    + vm_compute. reflexivity.
    + vm_compute. reflexivity.
    + vm_compute. discriminate.
    + vm_compute. discriminate.
    + vm_compute. reflexivity.
    + exists st1, st2. split; [exact H1|]. split; [exact H2|].
      split; [rewrite Hh1; vm_compute; reflexivity|].
      split; [exact Hh2|].
      split; [rewrite Ht2, Ht1; vm_compute; reflexivity|].
      rewrite Hv2, Hv1. vm_compute. reflexivity.
  - destruct (Hsubmit form_filled (str "dQw4w9WgXcQ"))
      as (st1 & st2 & H1 & H2 & Hh1 & Ht1 & Hv1 & Hh2 & Ht2 & Hv2).
    + vm_compute. reflexivity.
    + vm_compute. reflexivity.
    + vm_compute. lia.
    + exists st1, st2. split; [exact H1|]. split; [exact H2|].
      split; [rewrite Ht1; vm_compute; reflexivity|].
      split; [rewrite Hh2; exact Hh1|].
      split; [rewrite Ht2; vm_compute; reflexivity|].
      exact Hv2.
Defined.

(** When a submit falls between a retake and its failing response, the
    history after the failure is the one the submit emptied, not the one
    the retake passed to the generator: the response leaves the history as
    it finds it, which need not be as it was at the generator call. *)
Lemma submit_between_retake_and_failure :
  exists st1 st2 st3,
    step quiz_done ClickRetake = Some st1
    /\ step st1 Submit = Some st2
    /\ step st2 (Settle 0 (Failed None)) = Some st3
    /\ (pending st2 !! 0 = Some
          (mkRequest ByRetake
             (build_prompt sample_transcript (previousQuestions st1))))
    /\ length (previousQuestions st1) = 5
    /\ previousQuestions st2 = []
    /\ previousQuestions st3 = [].
Proof.
  eexists _, _, _.
  split; [vm_compute; reflexivity|].
  split; [vm_compute; reflexivity|].
  split; [vm_compute; reflexivity|].
  split; [vm_compute; reflexivity|].
  repeat split.
Qed.

End Failure.

Section Responses.

Implicit Types (st : State) (e : Event) (r : Request).

(** X5. When the response is an empty array the error block shows the
    no-questions message, the quiz output is cleared and the player removed;
    the history and the three counters keep their values. *)
Theorem empty_response_shows_error st k r :
  pending st !! k = Some r ->
  exists st',
    step st (Settle k (Resolved [])) = Some st'
    /\ errorMessage_hidden st' = false
    /\ errorMessage_textContent st' = msg_no_questions
    /\ questionsList st' = []
    /\ videoContainer st' = []
    /\ previousQuestions st' = previousQuestions st
    /\ totalQuestions st' = totalQuestions st
    /\ answeredQuestions st' = answeredQuestions st
    /\ correctAnswers st' = correctAnswers st.
Proof.
  intros Hk. eexists. split; [exact (step_settle _ _ _ _ Hk)|].
  unfold settle.
  destruct (caller r); simpl; rewrite app_nil_r; repeat split.
Qed.

(** X6. Restart does not cancel a submit that is in flight. The request
    stays outstanding, and when its questions arrive they are rendered and
    the transcript and identifier of that submit are stored, with the
    fields still empty and no player embedded. *)
Theorem restart_keeps_request st k r transcript videoId q qs :
  pending st !! k = Some r ->
  caller r = BySubmit transcript videoId ->
  restartBtn_disabled st = false ->
  exists st1 st2,
    step st ClickRestart = Some st1
    /\ pending st1 = pending st
    /\ currentTranscript st1 = None
    /\ previousQuestions st1 = []
    /\ step st1 (Settle k (Resolved (q :: qs))) = Some st2
    /\ currentTranscript st2 = Some transcript
    /\ currentVideoId st2 = Some videoId
    /\ previousQuestions st2 = q :: qs
    /\ questionsList st2 = imap render_question (q :: qs)
    /\ urlInput_value st2 = []
    /\ transcriptInput_value st2 = []
    /\ videoContainer st2 = [].
Proof.
  intros Hk Hc Hbtn. eexists _, _.
  split; [simpl; rewrite Hbtn; reflexivity|].
  do 3 (split; [reflexivity|]).
  split; [apply step_settle; exact Hk|].
  unfold settle. rewrite Hc. repeat split.
Qed.

(** X7. Submit, response, retake: whatever the history was, the retake
    that follows a submit and its response excludes exactly the questions
    of that response. *)
Theorem retake_after_submit st id q qs :
  generateBtn_disabled st = false ->
  retakeBtn_disabled st = false ->
  getYouTubeID (trim (urlInput_value st)) = Some id ->
  100 <= length (trim (transcriptInput_value st)) ->
  exists st',
    run st [Submit; Settle (length (pending st)) (Resolved (q :: qs));
            ClickRetake] = Some st'
    /\ pending st'
       = pending st
           ++ [mkRequest ByRetake
                 (build_prompt (trim (transcriptInput_value st)) (q :: qs))]
    /\ previousQuestions st' = q :: qs
    /\ currentTranscript st' = Some (trim (transcriptInput_value st))
    /\ currentVideoId st' = Some id.
Proof.
  intros Hgen Hre Hid Hlen.
  pose proof (getYouTubeID_length _ _ Hid) as Hlen11.
  cbn [run]. cbn [step]. rewrite Hgen.
  destruct (submit_begin_cases st)
    as [(Hid' & _)|[(id' & _ & Hlen' & _)|(id' & Hid' & _ & ->)]];
    [congruence|lia|].
  assert (id' = id) as -> by congruence.
  destruct (trim (transcriptInput_value st)) as [|c t] eqn:Ht;
    [simpl in Hlen; lia|].
  destruct id as [|c' id]; [discriminate|].
  unfold generateQuiz_call at 1. unfold andThen at 1 2 3. cbn [truthy].
  match goal with
  | |- context [pending ?s !! length (pending st)] =>
      replace (pending s !! length (pending st))
        with (Some (mkRequest (BySubmit (c :: t) (c' :: id))
                      (build_prompt (c :: t) [])))
        by (symmetry; simpl; apply list_lookup_middle; reflexivity)
  end.
  simpl. rewrite Hre. unfold retake_begin. simpl.
  eexists. split; [reflexivity|]. simpl.
  rewrite delete_middle, app_nil_r. repeat split.
Qed.

End Responses.

Section Counters.

Implicit Types (st : State) (e : Event).

Lemma correct_le_answered_step st e st' :
  correctAnswers st <= answeredQuestions st ->
  step st e = Some st' ->
  correctAnswers st' <= answeredQuestions st'.
Proof.
  intros Hle.
  destruct e as [s|s| | | |j i|k o]; simpl.
  - now intros [= <-].
  - now intros [= <-].
  - destruct (generateBtn_disabled st); [discriminate|]. intros [= <-].
    destruct (submit_begin_cases st)
      as [(_ & ->)|[(id & _ & _ & ->)|(id & _ & _ & ->)]]; try exact Hle.
    unfold generateQuiz_call, andThen. now destruct (truthy (Some id)).
  - destruct (restartBtn_disabled st); [discriminate|]. now intros [= <-].
  - destruct (retakeBtn_disabled st); [discriminate|]. intros [= <-].
    unfold retake_begin.
    destruct (currentTranscript st) as [t|];
      [destruct (truthy (Some t) && truthy (currentVideoId st))|];
      exact Hle.
  - destruct (questionsList st !! j) as [it|] eqn:Hj; [|discriminate].
    destruct (optionElements it !! i) as [opt|]; [|discriminate].
    intros [= <-].
    destruct (answered it) eqn:Hans.
    + unfold option_click. now rewrite Hj, Hans.
    + destruct (option_click_unanswered st j i it opt Hj Hans)
        as (_ & Ha & Hc & _).
      rewrite Ha, Hc. destruct (bool_decide _); lia.
  - destruct (pending st !! k) as [r|]; [|discriminate]. intros [= <-].
    unfold settle.
    destruct (caller r); destruct o as [message|[|q qs]|written rendered count message]; simpl;
      first [exact Hle | lia].
Qed.

(** X8. In every reachable state, overlapping requests or not, the number
    of correct answers is at most the number of answers given. *)
Theorem correct_le_answered st :
  reachable st -> correctAnswers st <= answeredQuestions st.
Proof.
  intros Hst. induction Hst as [|st e st' _ IH He].
  - simpl. lia.
  - exact (correct_le_answered_step st e st' IH He).
Qed.

(** X9. The first answer to a question adds one to [answeredQuestions],
    adds one to [correctAnswers] exactly when the text of the clicked
    option is the answer, leaves [totalQuestions] and the outstanding
    requests alone, and touches no other question on the page. *)
Theorem first_answer_scores st j i it opt :
  questionsList st !! j = Some it ->
  optionElements it !! i = Some opt ->
  answered it = false ->
  exists st',
    step st (ClickOption j i) = Some st'
    /\ answeredQuestions st' = S (answeredQuestions st)
    /\ correctAnswers st'
       = (if bool_decide (value opt = q_answer it)
          then S (correctAnswers st) else correctAnswers st)
    /\ totalQuestions st' = totalQuestions st
    /\ pending st' = pending st
    /\ length (questionsList st') = length (questionsList st)
    /\ forall j', j' <> j -> questionsList st' !! j' = questionsList st !! j'.
Proof.
  intros Hj Hi Hans. eexists. split; [simpl; rewrite Hj, Hi; reflexivity|].
  destruct (option_click_unanswered st j i it opt Hj Hans)
    as (_ & Ha & Hc & Ht & _).
  destruct (option_click_state st j i it (value opt) (q_answer it) Hj Hans)
    as (Hq & Hp & _).
  split; [exact Ha|]. split; [exact Hc|]. split; [exact Ht|].
  split; [exact Hp|]. rewrite Hq. split.
  - now rewrite !length_alter.
  - intros j' Hne. now rewrite !list_lookup_alter_ne by congruence.
Qed.

(** X10. After a freshly rendered question is answered, whatever its
    answer field holds, it still shows as many options with the same texts
    in the same order, every one of them is disabled, and the clicked
    option is the only one selected. *)
Theorem answer_disables_options st j i index q optionText :
  questionsList st !! j = Some (render_question index q) ->
  options q !! i = Some optionText ->
  exists st' it',
    step st (ClickOption j i) = Some st'
    /\ questionsList st' !! j = Some it'
    /\ value <$> optionElements it' = options q
    /\ forall k o,
         optionElements it' !! k = Some o ->
         input_disabled o = true
         /\ cursor_default o = true
         /\ (selected o = true <-> k = i).
Proof.
  intros Hj Hi.
  set (opt := render_option optionText).
  assert (Hopt : optionElements (render_question index q) !! i = Some opt).
  { simpl. now rewrite list_lookup_fmap, Hi. }
  destruct (option_click_unanswered st j i _ opt Hj eq_refl) as (Hq & _).
  simpl in Hq.
  pose proof (checkAnswer_options_lookup (options q) i optionText (answer q))
    as Hlook.
  eexists _, _. split; [simpl; rewrite Hj, Hopt; reflexivity|].
  split; [exact Hq|]. simpl. split.
  - apply list_eq. intros k. rewrite list_lookup_fmap.
    destruct (options q !! k) as [v|] eqn:Hv.
    + now rewrite (Hlook k v Hi Hv).
    + apply lookup_ge_None in Hv.
      rewrite (proj2 (lookup_ge_None _ _)); [reflexivity|].
      now rewrite checkAnswer_options_length, length_fmap.
  - intros k o Hk.
    destruct (options q !! k) as [v|] eqn:Hv.
    + rewrite (Hlook k v Hi Hv) in Hk. injection Hk as <-. simpl.
      split; [reflexivity|]. split; [reflexivity|].
      apply bool_decide_eq_true.
    + apply lookup_lt_Some in Hk.
      rewrite checkAnswer_options_length, length_fmap in Hk.
      apply lookup_ge_None in Hv. lia.
Qed.

End Counters.

Section Page.

Implicit Types (st : State) (e : Event).

Lemma option_click_shown st j i it txt ans :
  questionsList st !! j = Some it ->
  answered it = false ->
  let st' := option_click j i txt ans st in
  resultsContainer_display st'
  = (if Nat.eqb (S (answeredQuestions st)) (totalQuestions st)
     then display_block else resultsContainer_display st)
  /\ loader_display st' = loader_display st.
Proof.
  intros Hj Hans. unfold option_click. rewrite Hj, Hans.
  unfold andThen, checkAnswer.
  destruct (bool_decide (txt = ans));
    match goal with
    | |- context [if ?c then displayResults _ else _] =>
        change c with (Nat.eqb (S (answeredQuestions st)) (totalQuestions st))
    end;
    destruct (Nat.eqb (S (answeredQuestions st)) (totalQuestions st));
    split; reflexivity.
Qed.

Lemma run_exclusive_reachable st es st' :
  reachable_exclusive st -> run_exclusive st es = Some st' ->
  reachable_exclusive st'.
Proof.
  revert st. induction es as [|e es IH]; intros st Hst; simpl.
  - now intros [= <-].
  - destruct (step_exclusive st e) as [st1|] eqn:He; [|discriminate].
    apply IH. now apply (reachable_exclusive_step st e).
Qed.

Ltac page_close :=
  repeat split; try assumption; try congruence; try discriminate; try lia;
  try (intros [Hc _]; congruence); try (intros [_ Hz]; discriminate).

Lemma page_inv_step st e st' :
  page_inv st -> step_exclusive st e = Some st' -> page_inv st'.
Proof.
  intros Hinv. pose proof Hinv as (Hlen & Hnone & Hsum & Hres & Hload).
  destruct e as [s|s| | | |j i|k o]; simpl.
  - intros [= <-]. exact Hinv.
  - intros [= <-]. exact Hinv.
  - destruct (pending st) as [|r rs] eqn:Hp; [|discriminate].
    destruct (generateBtn_disabled st); [discriminate|]. intros [= <-].
    destruct (submit_begin_cases st)
      as [(_ & ->)|[(id & _ & _ & ->)|(id & _ & _ & ->)]].
    1, 2: exact Hinv.
    unfold generateQuiz_call, andThen, page_inv.
    destruct (truthy (Some id)); simpl; rewrite Hp; simpl;
      change (unanswered []) with 0; page_close.
  - destruct (restartBtn_disabled st); [discriminate|]. intros [= <-].
    unfold page_inv; simpl. change (unanswered []) with 0.
    page_close; apply Hload.
  - destruct (pending st) as [|r rs] eqn:Hp; [|discriminate].
    destruct (retakeBtn_disabled st); [discriminate|]. intros [= <-].
    unfold retake_begin.
    destruct (currentTranscript st) as [t|];
      [destruct (truthy (Some t) && truthy (currentVideoId st))|].
    2, 3: exact Hinv.
    unfold page_inv. simpl. rewrite Hp. simpl.
    change (unanswered []) with 0. page_close.
  - destruct (questionsList st !! j) as [it|] eqn:Hj; [|discriminate].
    destruct (optionElements it !! i) as [opt|]; [|discriminate].
    intros [= <-].
    destruct (answered it) eqn:Hans.
    { unfold option_click. rewrite Hj, Hans. exact Hinv. }
    assert (Hne : questionsList st <> []).
    { intros Hnil. rewrite Hnil in Hj. discriminate. }
    assert (Hpnil : pending st = []).
    { destruct (pending st) as [|r rs] eqn:Hp; [reflexivity|].
      exfalso. apply Hne, Hnone. discriminate. }
    destruct (option_click_state st j i it (value opt) (q_answer it) Hj Hans)
      as (Hq & Hp & Ha & Ht).
    destruct (option_click_shown st j i it (value opt) (q_answer it) Hj Hans)
      as (Hd & Hl).
    specialize (Hsum Hne).
    unfold page_inv. rewrite Hq, Hp, Ha, Ht, Hd, Hl.
    rewrite list_alter_alter_eq.
    match goal with
    | |- context [unanswered (alter ?f j ?l)] =>
        pose proof (unanswered_alter f j l it Hj Hans eq_refl) as Hun;
        assert (Hne' : alter f j l <> [])
          by (intros Hnil; apply (f_equal length) in Hnil;
              rewrite length_alter in Hnil;
              destruct l; [congruence|discriminate])
    end.
    split; [exact Hlen|]. split; [intros; congruence|].
    split; [intros _; lia|]. split; [|exact Hload].
    destruct (Nat.eqb (S (answeredQuestions st)) (totalQuestions st)) eqn:Heq.
    + apply Nat.eqb_eq in Heq. split; [intros _|reflexivity].
      split; [exact Hne'|lia].
    + apply Nat.eqb_neq in Heq. split.
      * intros Hb. apply Hres in Hb as [_ Hz]. lia.
      * intros [_ Hz]. lia.
  - destruct (pending st) as [|r [|r' rs]] eqn:Hp; simpl in Hlen; try lia.
    + destruct k; discriminate.
    + destruct k as [|k]; [|destruct k; discriminate]. simpl.
      intros [= <-].
      assert (Hnil : questionsList st = []) by (apply Hnone; discriminate).
      assert (Hnb : resultsContainer_display st <> display_block).
      { intros Hb. apply Hres in Hb as [Hb _]. congruence. }
      unfold settle, page_inv.
      destruct o as [message|[|q qs]|written rendered count message]; destruct (caller r); simpl;
        rewrite ?Hnil; simpl; change (unanswered []) with 0;
        try change (render_question 0 q :: imap (render_question ∘ S) qs)
              with (imap render_question (q :: qs));
        rewrite ?unanswered_imap by reflexivity; simpl;
        page_close; try (intros Hb; contradiction).
Qed.

Lemma page_inv_reachable st : reachable_exclusive st -> page_inv st.
Proof.
  intros Hst. induction Hst as [|st e st' _ IH He].
  - unfold page_inv. simpl. change (unanswered []) with 0. page_close.
  - exact (page_inv_step st e st' IH He).
Qed.

End Page.

(** ** Identifier extraction on everyday URLs *)

Section EverydayUrls.

Implicit Types (s url pre d id rest : list N).

(** A delimiter holds a slash, or v followed by =. *)
Lemma delim_len_needs s n :
  delim_len s = Some n ->
  (exists p, s !! p = Some 47%N)
  \/ (exists p, s !! p = Some 118%N /\ s !! S p = Some 61%N).
Proof.
  intros (d & rest & -> & Hd & _)%delim_len_Some.
  destruct Hd as [c Hc| |c Hc| | |].
  - left. exists 8. reflexivity.
  - left. exists 1. reflexivity.
  - left. exists 1. reflexivity.
  - left. exists 5. reflexivity.
  - right. exists 6. split; reflexivity.
  - right. exists 1. split; reflexivity.
Qed.

Lemma has_v_equals_false s p :
  has_v_equals s = false ->
  s !! p = Some 118%N -> s !! S p = Some 61%N -> False.
Proof.
  revert p. induction s as [|c s IH]; intros p; [discriminate 2|].
  cbn [has_v_equals]. intros [Hhere Hlater]%orb_false_elim.
  destruct p as [|p]; simpl.
  - intros [= ->] Hs. destruct s as [|c' s]; [discriminate|].
    injection Hs as ->. discriminate.
  - now apply IH.
Qed.

Lemma no_slash_lookup s p :
  existsb (N.eqb 47) s = false -> s !! p <> Some 47%N.
Proof.
  revert p. induction s as [|c s IH]; intros p; [now destruct p|].
  cbn [existsb]. intros [Hc Hs]%orb_false_elim.
  destruct p as [|p]; simpl; [|now apply IH].
  intros [= ->]. discriminate.
Qed.

Lemma id_char_plain c :
  id_char c = true ->
  Spec.separator c = false /\ c <> 47%N /\ c <> 61%N.
Proof.
  unfold id_char, word_char, Spec.separator. intros H.
  repeat (apply orb_true_iff in H as [H|H]);
    repeat (apply andb_true_iff in H as [? H]);
    repeat match goal with
           | H : N.leb _ _ = true |- _ => apply N.leb_le in H
           | H : N.eqb _ _ = true |- _ => apply N.eqb_eq in H
           end;
    (split; [|lia]);
    change (existsb (N.eqb c) (str "#&?"))
      with (N.eqb c 35 || (N.eqb c 38 || (N.eqb c 63 || false)));
    rewrite !orb_false_iff; repeat split; apply N.eqb_neq; lia.
Qed.

(** No delimiter starts inside an identifier or inside a plain tail. *)
Lemma no_delimiter_after id rest j :
  forallb id_char id = true -> plain_tail rest = true ->
  delim_len (drop j (id ++ rest)) = None.
Proof.
  intros Hid Hrest.
  assert (Hidc : forall p c, id !! p = Some c ->
                             Spec.separator c = false /\ c <> 47%N /\ c <> 61%N).
  { intros p c Hp. apply id_char_plain.
    rewrite forallb_forall in Hid. apply Hid.
    apply list_elem_of_In. eapply list_elem_of_lookup_2, Hp. }
  assert (existsb (N.eqb 47) rest = false
          /\ has_v_equals rest = false
          /\ rest !! 0 <> Some 61%N) as (Hs & Hv & Hhead).
  { destruct rest as [|c rest']; [now repeat split|].
    unfold plain_tail in Hrest.
    apply andb_prop in Hrest as [[Hsep Hs]%andb_prop Hv].
    apply negb_true_iff in Hs, Hv. split; [exact Hs|]. split; [exact Hv|].
    simpl. intros [= ->]. discriminate. }
  destruct (delim_len (drop j (id ++ rest))) as [n|] eqn:Hd; [exfalso|reflexivity].
  apply delim_len_needs in Hd as [(p & Hp)|(p & Hp & Hq)].
  - rewrite lookup_drop, lookup_app in Hp.
    destruct (id !! (j + p)) as [c|] eqn:Hc.
    + injection Hp as ->. destruct (Hidc _ _ Hc) as (_ & H & _). congruence.
    + now apply no_slash_lookup in Hp.
  - rewrite lookup_drop, lookup_app in Hp, Hq.
    destruct (id !! (j + S p)) as [c|] eqn:Hc.
    + injection Hq as ->. destruct (Hidc _ _ Hc) as (_ & _ & H). congruence.
    + destruct (id !! (j + p)) as [c'|] eqn:Hc'.
      * apply lookup_ge_None in Hc. apply lookup_lt_Some in Hc'.
        replace (j + S p - length id) with 0 in Hq by lia. contradiction.
      * apply lookup_ge_None in Hc'.
        replace (j + S p - length id) with (S (j + p - length id)) in Hq by lia.
        exact (has_v_equals_false _ _ Hv Hp Hq).
Qed.

(** No delimiter starts inside an everyday delimiter. *)
Lemma no_delimiter_inside d k s :
  d ∈ everyday_delimiters -> 0 < k < length d ->
  delim_len (drop k d ++ s) = None.
Proof.
  unfold everyday_delimiters. rewrite !elem_of_cons.
  intros [->|[->|[->|[->|[->|H]]]]] [Hk1 Hk2]; [..|inversion H];
    vm_compute in Hk2;
    do 9 (destruct k as [|k]; [first [lia | reflexivity]|]);
    lia.
Qed.

Lemma everyday_delimiter d : d ∈ everyday_delimiters -> delimiter d.
Proof.
  unfold everyday_delimiters. rewrite !elem_of_cons.
  intros [->|[->|[->|[->|[->|H]]]]]; [..|inversion H].
  - constructor.
  - apply (delim_youtu 46). reflexivity.
  - constructor.
  - constructor.
  - constructor.
Qed.

(** X14. An everyday URL is accepted: when a one-line prefix is followed by
    watch?v=, youtu.be/, embed/, v/ or &v=, then by 11 characters of the
    identifier alphabet, and then by nothing or by a query or fragment
    that holds neither a slash nor v=, [getYouTubeID] returns those 11
    characters. *)
Theorem everyday_url_accepted pre d id rest :
  one_line pre ->
  d ∈ everyday_delimiters ->
  length id = 11 ->
  forallb id_char id = true ->
  plain_tail rest = true ->
  getYouTubeID (pre ++ d ++ id ++ rest) = Some id.
Proof.
  intros Hpre Hd Hlen Hid Hrest.
  apply getYouTubeID_star. exists (length pre), (length d).
  split; [now apply one_line_span|].
  rewrite !drop_app_length.
  split; [apply delim_len_Some; exists d, (id ++ rest);
          split; [reflexivity|]; split; [now apply everyday_delimiter|reflexivity]|].
  split.
  { apply token_of_span. exists rest. split; [reflexivity|]. split.
    - apply Forall_forall. intros c Hc. apply id_char_plain.
      rewrite forallb_forall in Hid. apply Hid. now apply list_elem_of_In.
    - destruct rest as [|c rest']; [now left|]. right. exists c, rest'.
      split; [reflexivity|]. unfold plain_tail in Hrest.
      now apply andb_prop in Hrest as [[Hsep _]%andb_prop _]. }
  split; [exact Hlen|].
  intros n' [Hgt _].
  replace n' with (length pre + (n' - length pre)) by lia.
  rewrite drop_app_add'  by reflexivity.
  destruct (decide (n' - length pre < length d)) as [Hin|Hout].
  - rewrite drop_app_le by lia. apply no_delimiter_inside; [exact Hd|lia].
  - replace (n' - length pre) with (length d + (n' - length pre - length d))
      by lia.
    rewrite drop_app_add' by reflexivity.
    now apply no_delimiter_after.
Qed.

(** X15. A string that holds neither a slash nor an equals sign, such as a
    bare identifier, gives null. *)
Theorem no_slash_no_equals_rejected url :
  existsb (fun c => N.eqb c 47 || N.eqb c 61) url = false ->
  getYouTubeID url = None.
Proof.
  intros Hno.
  destruct (getYouTubeID url) as [tok|] eqn:Hid; [exfalso|reflexivity].
  apply getYouTubeID_star in Hid as (n & dn & _ & Hd & _).
  assert (Hchar : forall p c, url !! p = Some c -> c <> 47%N /\ c <> 61%N).
  { intros p c Hp. rewrite <- not_true_iff_false, existsb_exists in Hno.
    split; intros ->; apply Hno; eexists;
      (split; [apply list_elem_of_In; eapply list_elem_of_lookup_2, Hp|]);
      reflexivity. }
  apply delim_len_needs in Hd as [(p & Hp)|(p & _ & Hp)];
    rewrite lookup_drop in Hp; now apply Hchar in Hp.
Qed.

(** X16. Whatever [getYouTubeID] returns has exactly 11 code units, none of
    them #, & or ?, and occurs in the input right after a slash or an
    equals sign. *)
Theorem extracted_id_shape url id :
  getYouTubeID url = Some id ->
  length id = 11
  /\ Forall (fun c => Spec.separator c = false) id
  /\ exists before c after,
       url = before ++ c :: id ++ after /\ (c = 47%N \/ c = 61%N).
Proof.
  intros (pre & d & s & Hurl & (_ & Hd & _) & (rest & -> & Htok & _) & Hlen)
    %getYouTubeID_extracts.
  split; [exact Hlen|]. split; [exact Htok|].
  assert (Hlast : exists d' c, d = d' ++ [c] /\ (c = 47%N \/ c = 61%N)).
  { destruct Hd as [c Hc| |c Hc| | |].
    - exists (str "youtu" ++ c :: str "be"), 47%N. split; [reflexivity|now left].
    - exists (str "v"), 47%N. split; [reflexivity|now left].
    - exists (str "u/" ++ [c]), 47%N. split; [reflexivity|now left].
    - exists (str "embed"), 47%N. split; [reflexivity|now left].
    - exists (str "watch?v"), 61%N. split; [reflexivity|now right].
    - exists (str "&v"), 61%N. split; [reflexivity|now right]. }
  destruct Hlast as (d' & c & -> & Hc).
  exists (pre ++ d'), c, rest. split; [|exact Hc].
  rewrite Hurl. now rewrite <- !app_assoc.
Qed.

End EverydayUrls.

Section PerfectScore.

Lemma perfect_ok_upto_sound n c t :
  perfect_ok_upto n = true -> 0 < t <= n -> c <= t -> perfect_ok c t = true.
Proof.
  unfold perfect_ok_upto. rewrite forallb_forall. intros H Ht Hc.
  specialize (H t). rewrite forallb_forall in H.
  apply H; apply in_seq; lia.
Qed.

Lemma perfect_ok_199 : perfect_ok_upto 199 = true.
Proof. vm_compute. reflexivity. Qed.

Lemma title_of_perfect p :
  title_of p = title_perfect <-> strict_eq p (Number_of_nat 100) = true.
Proof.
  unfold title_of. destruct (strict_eq p (Number_of_nat 100)).
  - split; reflexivity.
  - split; [|discriminate].
    destruct (Number_ge p (Number_of_nat 75));
      [|destruct (Number_ge p (Number_of_nat 50))];
      intros H; vm_compute in H; discriminate H.
Qed.

(** X17. With fewer than 200 questions the title shown is the perfect-score
    title exactly when every answer was right. (At 199 of 200 the
    percentage rounds to 100.) *)
Theorem perfect_title_iff_all_right st :
  0 < totalQuestions st < 200 ->
  correctAnswers st <= totalQuestions st ->
  resultsTitle_textContent (displayResults st) = title_perfect
  <-> correctAnswers st = totalQuestions st.
Proof.
  intros Ht Hc.
  change (resultsTitle_textContent (displayResults st))
    with (title_of (percentage_of (correctAnswers st) (totalQuestions st))).
  rewrite title_of_perfect.
  pose proof (perfect_ok_upto_sound 199 _ _ perfect_ok_199
                (conj (proj1 Ht) (proj1 (Nat.lt_succ_r _ _) (proj2 Ht))) Hc)
    as Hok.
  unfold perfect_ok in Hok. apply Bool.eqb_prop in Hok. rewrite Hok.
  apply Nat.eqb_eq.
Qed.

End PerfectScore.

Section PageTheorems.

Implicit Types (st : State).

(** X11. As long as requests do not overlap, the results are on display
    exactly when questions are shown and every one of them is answered,
    and then [answeredQuestions] equals [totalQuestions]. *)
Theorem results_shown_iff_all_answered st :
  reachable_exclusive st ->
  (resultsContainer_display st = display_block
   <-> questionsList st <> [] /\ unanswered (questionsList st) = 0)
  /\ (resultsContainer_display st = display_block ->
      answeredQuestions st = totalQuestions st).
Proof.
  intros (_ & _ & Hsum & Hres & _)%page_inv_reachable.
  split; [exact Hres|].
  intros [Hne Hz]%Hres. specialize (Hsum Hne). lia.
Qed.

(** X12. As long as requests do not overlap, the loader is on exactly
    while a request is outstanding, and during that time no question and
    no result is on display. *)
Theorem loader_on_while_pending st :
  reachable_exclusive st ->
  (loader_display st = display_block <-> pending st <> [])
  /\ (pending st <> [] ->
      questionsList st = []
      /\ resultsContainer_display st <> display_block).
Proof.
  intros (_ & Hnone & _ & Hres & Hload)%page_inv_reachable.
  split; [exact Hload|].
  intros Hp. split; [now apply Hnone|].
  intros [Hne _]%Hres. now apply Hne, Hnone.
Qed.

(** X13. As long as requests do not overlap, questions that arrive replace
    what was on the page: the page shows their blocks and nothing else, in
    order and numbered from 1, the counters are reset to their number, 0
    and 0, the questions are added at the end of the history, and no
    request is left outstanding. *)
Theorem exclusive_render_replaces st k r q qs :
  reachable_exclusive st ->
  pending st !! k = Some r ->
  exists st',
    step_exclusive st (Settle k (Resolved (q :: qs))) = Some st'
    /\ questionsList st' = imap render_question (q :: qs)
    /\ totalQuestions st' = S (length qs)
    /\ answeredQuestions st' = 0
    /\ correctAnswers st' = 0
    /\ previousQuestions st' = previousQuestions st ++ q :: qs
    /\ pending st' = [].
Proof.
  intros (Hlen & Hnone & _)%page_inv_reachable Hk.
  assert (Hnil : questionsList st = []).
  { apply Hnone. intros Hp. rewrite Hp in Hk. discriminate. }
  assert (Hdel : delete k (pending st) = []).
  { destruct (pending st) as [|r0 [|r1 rs]]; simpl in Hlen; try lia;
      [discriminate|].
    destruct k as [|k]; [reflexivity|]. destruct k; discriminate. }
  eexists. split; [simpl; rewrite Hk; reflexivity|].
  unfold settle. destruct (caller r); simpl; rewrite Hnil, Hdel;
    repeat split.
Qed.

End PageTheorems.

(** ** Worked cases of the further properties *)

Section MoreWorkedCases.

Lemma reachable_run_init es : reachable (default init (run init es)).
Proof.
  destruct (run init es) as [st|] eqn:Hrun; simpl; [|constructor].
  apply (run_reachable init es); [constructor | exact Hrun].
Qed.

Lemma reachable_exclusive_quiz_done : reachable_exclusive quiz_done.
Proof.
  apply (run_exclusive_reachable init first_quiz); [constructor|].
  vm_compute. reflexivity.
Qed.

Lemma reachable_exclusive_retake_pending : reachable_exclusive retake_pending.
Proof.
  apply (run_exclusive_reachable init (first_quiz ++ [ClickRetake]));
    [constructor|].
  vm_compute. reflexivity.
Qed.

(** A bare identifier in the URL field. *)
Lemma submit_rejects_invalid_witness :
  exists st',
    step bare_id_typed Submit = Some st'
    /\ same_but_formError bare_id_typed st'
    /\ pending st' = []
    /\ formError_hidden st' = false
    /\ formError_textContent st' = msg_invalid_url.
Proof.
  destruct (submit_rejects_invalid bare_id_typed)
    as (st' & Hstep & Hsame & Hp & Hh & Ht).
  - vm_compute. reflexivity.
  - left. vm_compute. reflexivity.
  - exists st'. split; [exact Hstep|]. split; [exact Hsame|].
    split; [rewrite Hp; vm_compute; reflexivity|]. split; [exact Hh|].
    rewrite Ht. vm_compute. reflexivity.
Defined.

(** The sample form is submitted. *)
Lemma valid_submit_starts_generation_witness :
  exists st',
    step form_filled Submit = Some st'
    /\ contents <$> pending st'
       = [prompt_base ++ prompt_transcript ++ sample_transcript]
    /\ videoContainer st'
       = [mkIframe (str "https://www.youtube.com/embed/dQw4w9WgXcQ")]
    /\ generateBtn_disabled st' = true
    /\ currentTranscript st' = None.
Proof.
  destruct (valid_submit_starts_generation form_filled (str "dQw4w9WgXcQ"))
    as (st' & Hstep & Hp & _ & Hv & _ & Hb & _ & Ht & _).
  - vm_compute. reflexivity.
  - vm_compute. reflexivity.
  - vm_compute. lia.
  - exists st'. split; [exact Hstep|].
    split; [rewrite Hp; vm_compute; reflexivity|].
    split; [rewrite Hv; vm_compute; reflexivity|].
    split; [exact Hb|]. rewrite Ht. vm_compute. reflexivity.
Defined.

(** After a first quiz both session variables are set. *)
Lemma session_both_or_neither_witness :
  currentTranscript quiz_done = Some sample_transcript
  /\ currentVideoId quiz_done = Some (str "dQw4w9WgXcQ")
  /\ valid_session sample_transcript (str "dQw4w9WgXcQ").
Proof.
  assert (Ht : currentTranscript quiz_done = Some sample_transcript)
    by (vm_compute; reflexivity).
  assert (Hv : currentVideoId quiz_done = Some (str "dQw4w9WgXcQ"))
    by (vm_compute; reflexivity).
  split; [exact Ht|]. split; [exact Hv|].
  exact (proj2 (session_both_or_neither quiz_done (reachable_run_init first_quiz))
           _ _ Ht Hv).
Defined.

(** Before any submit the retake button is inert; after a quiz it sends a
    request. *)
Lemma retake_needs_session_witness :
  step init ClickRetake = Some init
  /\ exists st',
       step quiz_done ClickRetake = Some st'
       /\ length (pending st') = 1
       /\ retakeBtn_disabled st' = true.
Proof.
  split.
  - apply (proj1 (retake_needs_session init reachable_init eq_refl)).
    reflexivity.
  - destruct (proj2 (retake_needs_session quiz_done
                       (reachable_run_init first_quiz) eq_refl)
                sample_transcript)
      as (st' & Hstep & Hp & Hb & _).
    + vm_compute. reflexivity.
    + exists st'. split; [exact Hstep|].
      split; [rewrite Hp; vm_compute; reflexivity | exact Hb].
Defined.

(** A retake comes back with no question. *)
Lemma empty_response_shows_error_witness :
  exists st',
    step retake_pending (Settle 0 (Resolved [])) = Some st'
    /\ errorMessage_textContent st' = msg_no_questions
    /\ videoContainer st' = []
    /\ length (previousQuestions st') = 5
    /\ totalQuestions st' = 5.
Proof.
  destruct (empty_response_shows_error retake_pending 0
              (mkRequest ByRetake
                 (build_prompt sample_transcript (sample_quiz 1))) eq_refl)
    as (st' & Hstep & _ & Hmsg & _ & Hvid & Hhist & Htot & _).
  exists st'. split; [exact Hstep|]. split; [exact Hmsg|].
  split; [exact Hvid|].
  split; [rewrite Hhist | rewrite Htot]; vm_compute; reflexivity.
Defined.

(** Restart while the first submit is in flight, then its response. *)
Lemma restart_keeps_request_witness :
  exists st1 st2,
    step submit_pending ClickRestart = Some st1
    /\ length (pending st1) = 1
    /\ currentTranscript st1 = None
    /\ step st1 (Settle 0 (Resolved (sample_quiz 1))) = Some st2
    /\ currentTranscript st2 = Some sample_transcript
    /\ length (questionsList st2) = 5
    /\ urlInput_value st2 = []
    /\ videoContainer st2 = [].
Proof.
  destruct (restart_keeps_request submit_pending 0
              (mkRequest (BySubmit sample_transcript (str "dQw4w9WgXcQ"))
                 (build_prompt sample_transcript []))
              sample_transcript (str "dQw4w9WgXcQ")
              (sample_question 1) (sample_question <$> seq 2 4))
    as (st1 & st2 & H1 & Hp & Ht1 & _ & H2 & Ht2 & _ & _ & Hq & Hu & _ & Hv).
  - vm_compute. reflexivity.
  - reflexivity.
  - vm_compute. reflexivity.
  - exists st1, st2. split; [exact H1|].
    split; [rewrite Hp; vm_compute; reflexivity|]. split; [exact Ht1|].
    split; [exact H2|]. split; [exact Ht2|].
    split; [rewrite Hq; vm_compute; reflexivity|].
    split; [exact Hu | exact Hv].
Defined.

(** Submit, one question arrives, retake. *)
Lemma retake_after_submit_witness :
  exists st',
    run form_filled [Submit; Settle 0 (Resolved [sample_question 7]);
                     ClickRetake] = Some st'
    /\ contents <$> pending st'
       = [build_prompt sample_transcript [sample_question 7]]
    /\ previousQuestions st' = [sample_question 7].
Proof.
  destruct (retake_after_submit form_filled (str "dQw4w9WgXcQ")
              (sample_question 7) [])
    as (st' & Hrun & Hp & Hh & _).
  - vm_compute. reflexivity.
  - vm_compute. reflexivity.
  - vm_compute. reflexivity.
  - vm_compute. lia.
  - exists st'. split; [exact Hrun|].
    split; [rewrite Hp; vm_compute; reflexivity | exact Hh].
Defined.

(** Four right answers among five given. *)
Lemma correct_le_answered_witness :
  correctAnswers four_of_five = 4 /\ answeredQuestions four_of_five = 5
  /\ correctAnswers four_of_five <= answeredQuestions four_of_five.
Proof.
  split; [vm_compute; reflexivity|]. split; [vm_compute; reflexivity|].
  exact (correct_le_answered four_of_five (reachable_run_init _)).
Defined.

(** The right option of the first question is clicked. *)
Lemma first_answer_scores_witness :
  exists st',
    step quiz_shown (ClickOption 0 1) = Some st'
    /\ answeredQuestions st' = 1
    /\ correctAnswers st' = 1
    /\ questionsList st' !! 1 = questionsList quiz_shown !! 1.
Proof.
  destruct (first_answer_scores quiz_shown 0 1
              (render_question 0 (sample_question 1))
              (render_option (str "B")))
    as (st' & Hstep & Ha & Hc & _ & _ & _ & Hother).
  - vm_compute. reflexivity.
  - vm_compute. reflexivity.
  - reflexivity.
  - exists st'. split; [exact Hstep|].
    split; [rewrite Ha; vm_compute; reflexivity|].
    split; [rewrite Hc; vm_compute; reflexivity|].
    apply Hother. discriminate.
Defined.

(** An option of the question with the stray answer is clicked. *)
Lemma answer_disables_options_witness :
  exists st' it',
    step quiz_shown (ClickOption 1 2) = Some st'
    /\ questionsList st' !! 1 = Some it'
    /\ value <$> optionElements it' = options stray_question
    /\ forall k o,
         optionElements it' !! k = Some o ->
         input_disabled o = true
         /\ cursor_default o = true
         /\ (selected o = true <-> k = 2).
Proof.
  apply (answer_disables_options quiz_shown 1 2 1 stray_question (str "C")).
  - vm_compute. reflexivity.
  - vm_compute. reflexivity.
Defined.

(** With all five questions answered the results are on display. *)
Lemma results_shown_iff_all_answered_witness :
  resultsContainer_display quiz_done = display_block
  /\ unanswered (questionsList quiz_done) = 0
  /\ answeredQuestions quiz_done = totalQuestions quiz_done.
Proof.
  destruct (results_shown_iff_all_answered quiz_done
              reachable_exclusive_quiz_done) as (Hiff & Heq).
  assert (Hb : resultsContainer_display quiz_done = display_block)
    by (vm_compute; reflexivity).
  split; [exact Hb|]. split; [exact (proj2 (proj1 Hiff Hb)) | exact (Heq Hb)].
Defined.

(** While the retake is in flight the loader is on and nothing is shown. *)
Lemma loader_on_while_pending_witness :
  loader_display retake_pending = display_block
  /\ questionsList retake_pending = []
  /\ resultsContainer_display retake_pending <> display_block.
Proof.
  destruct (loader_on_while_pending retake_pending
              reachable_exclusive_retake_pending) as (Hiff & Hshown).
  assert (Hp : pending retake_pending <> []) by (vm_compute; discriminate).
  split; [exact (proj2 Hiff Hp) | exact (Hshown Hp)].
Defined.

(** The retake brings two questions. *)
Lemma exclusive_render_replaces_witness :
  exists st',
    step_exclusive retake_pending
      (Settle 0 (Resolved [sample_question 6; sample_question 7])) = Some st'
    /\ length (questionsList st') = 2
    /\ totalQuestions st' = 2
    /\ length (previousQuestions st') = 7
    /\ pending st' = [].
Proof.
  destruct (exclusive_render_replaces retake_pending 0
              (mkRequest ByRetake
                 (build_prompt sample_transcript (sample_quiz 1)))
              (sample_question 6) [sample_question 7]
              reachable_exclusive_retake_pending eq_refl)
    as (st' & Hstep & Hq & Ht & _ & _ & Hh & Hp).
  exists st'. split; [exact Hstep|].
  split; [rewrite Hq; reflexivity|]. split; [exact Ht|].
  split; [rewrite Hh; vm_compute; reflexivity | exact Hp].
Defined.

(** A watch URL with a time parameter after the identifier. *)
Lemma everyday_url_accepted_witness :
  getYouTubeID (str "https://www.youtube.com/watch?v=dQw4w9WgXcQ&t=42s")
  = Some (str "dQw4w9WgXcQ").
Proof.
  apply (everyday_url_accepted (str "https://www.youtube.com/")
           (str "watch?v=") (str "dQw4w9WgXcQ") (str "&t=42s")).
  - apply (bool_decide_eq_true_1 _). vm_compute. reflexivity.
  - apply (list_elem_of_lookup_2 _ 0). reflexivity.
  - reflexivity.
  - vm_compute. reflexivity.
  - vm_compute. reflexivity.
Defined.

(** A bare identifier. *)
Lemma no_slash_no_equals_rejected_witness :
  getYouTubeID (str "dQw4w9WgXcQ") = None.
Proof.
  apply no_slash_no_equals_rejected. vm_compute. reflexivity.
Defined.

(** The sample URL. *)
Lemma extracted_id_shape_witness :
  length (str "dQw4w9WgXcQ") = 11
  /\ Forall (fun c => Spec.separator c = false) (str "dQw4w9WgXcQ")
  /\ exists before c after,
       sample_url = before ++ c :: str "dQw4w9WgXcQ" ++ after
       /\ (c = 47%N \/ c = 61%N).
Proof.
  apply (extracted_id_shape sample_url). vm_compute. reflexivity.
Defined.

(** Four of five is not a perfect score. *)
Lemma perfect_title_iff_all_right_witness :
  resultsTitle_textContent (displayResults four_of_five) <> title_perfect.
Proof.
  intros H.
  apply (perfect_title_iff_all_right four_of_five) in H.
  - vm_compute in H. discriminate H.
  - vm_compute. lia.
  - vm_compute. lia.
Defined.

(** After a first quiz nothing is outstanding; during a retake one request
    is. *)
Lemma one_request_per_flow_witness :
  outstanding by_retake (pending retake_pending) <= 1
  /\ length (pending retake_pending) <= 2.
Proof.
  destruct (one_request_per_flow retake_pending
              (reachable_run_init (first_quiz ++ [ClickRetake])))
    as (_ & _ & Hr & Hl).
  split; [exact Hr | exact Hl].
Defined.

(** After a first quiz answered in full. *)
Lemma exclusive_answered_le_total_witness :
  answeredQuestions quiz_done <= totalQuestions quiz_done.
Proof.
  exact (exclusive_answered_le_total quiz_done reachable_exclusive_quiz_done).
Defined.

End MoreWorkedCases.
